(** * A shallow embedding of the webserver's decode / parse / encode pipeline

    The C program in [main.c] is modelled function by function.

    - A C string (a [char *] read up to its terminator) is a [string]: the
      characters before the terminating NUL.
    - Raw memory that the code scans itself (the receive buffer of
      [http_decode]) is a [list ascii] of the array's size, NUL bytes
      included; what an uninitialised array holds comes from the [World].
    - [int] and [size_t] values are [Z].  Where the code mixes the two (the
      size check of [send_response]) the conversion is written out; where
      it indexes or sizes an array with them ([reason], [construct_headers],
      [http_decode]) the bounds are checked.  The header counters only
      count lines of a text shorter than [INT_MAX] and cannot wrap.
    - A [NULL] pointer is [None].  [malloc] and [strdup] succeed, and
      releasing memory is not observable.
    - Code that prints, receives, sends or closes runs in a small state and
      error monad over a [World]; reads and writes outside an array, and
      passing [NULL] where a string is required, end a run in [Fault].
      A [Fault] marks the point where C leaves the behaviour undefined: it
      says that a run gets there, not what a given build does from there
      (a C library may print a placeholder for a NULL string, a read before
      a table may find zeros). *)

From Stdlib Require Import ZArith List Bool Lia Ascii String.
From Stdlib Require Import Numbers.DecimalString Numbers.DecimalZ
  Numbers.DecimalPos.
Import ListNotations.

Open Scope string_scope.
Open Scope Z_scope.

(* ================================================================== *)
(** * C strings *)
(* ================================================================== *)

Module CStr.

(** [isspace] in the "C" locale: space and the five controls \t \n \v \f \r. *)
Definition isspace (c : ascii) : bool :=
  let n := nat_of_ascii c in
  ((9 <=? n)%nat && (n <=? 13)%nat) || (n =? 32)%nat.

(** The string a pointer [s + n] designates. *)
Fixpoint drop (n : nat) (s : string) : string :=
  match n, s with
  | O, _ => s
  | S _, EmptyString => EmptyString
  | S n', String _ s' => drop n' s'
  end.

(** The string [s] designates once [s[n] = '\0'] has been written. *)
Fixpoint take (n : nat) (s : string) : string :=
  match n, s with
  | O, _ => EmptyString
  | S _, EmptyString => EmptyString
  | S n', String c s' => String c (take n' s')
  end.

(** [s[n]], the terminator when [n] is the length (or beyond). *)
Fixpoint char_at (s : string) (n : nat) : ascii :=
  match s, n with
  | EmptyString, _ => zero
  | String c _, O => c
  | String _ s', S n' => char_at s' n'
  end.

(** [strchr s c] as an offset from [s]; [None] is the NULL result. *)
Fixpoint strchr (s : string) (c : ascii) : option nat :=
  match s with
  | EmptyString => None
  | String a s' =>
      if Ascii.eqb a c then Some O else option_map S (strchr s' c)
  end.

(** [strspn s d] and [strcspn s d] for a one-character set [d]. *)
Fixpoint strspn (s : string) (d : ascii) : nat :=
  match s with
  | EmptyString => O
  | String a s' => if Ascii.eqb a d then S (strspn s' d) else O
  end.

Fixpoint strcspn (s : string) (d : ascii) : nat :=
  match s with
  | EmptyString => O
  | String a s' => if Ascii.eqb a d then O else S (strcspn s' d)
  end.

(** [strtok_r] with a single delimiter.  The argument is the text the scan
    starts from (the string on the first call, the saved pointer afterwards);
    the result is the token and the new saved pointer, [None] for NULL. *)
Definition strtok_r (s : string) (d : ascii) : option (string * string) :=
  let s1 := drop (strspn s d) s in
  match s1 with
  | EmptyString => None
  | String _ _ =>
      let n := strcspn s1 d in
      Some (take n s1, drop (S n) s1)
  end.

(** Number of occurrences of a character. *)
Fixpoint count_char (c : ascii) (s : string) : nat :=
  match s with
  | EmptyString => O
  | String a s' => ((if Ascii.eqb a c then 1 else 0) + count_char c s')%nat
  end.

(** [printf ("%d")] and [printf ("%zu")]. *)
Definition decimal (z : Z) : string := NilZero.string_of_int (Z.to_int z).

(** [crlf]: a fresh copy of the content followed by CR LF. *)
Definition crlf (content : string) : string :=
  content ++ String "013" (String "010" EmptyString).

(** ** trim_whitespace *)

(** First loop: advance [str] while it points at a whitespace character. *)
Fixpoint skip_space (str : string) : string :=
  match str with
  | EmptyString => EmptyString
  | String c s' => if isspace c then skip_space s' else str
  end.

(** Second loop: move [end] back while [end > str] and it points at a
    whitespace character; [e] is the offset of [end] from [str]. *)
Fixpoint scan_back (str : string) (e : nat) : nat :=
  match e with
  | O => O
  | S e' => if isspace (char_at str e) then scan_back str e' else e
  end.

Definition trim_whitespace (str : string) : string :=
  let str := skip_space str in
  match str with
  | EmptyString => str
  | String _ _ =>
      let e := scan_back str (String.length str - 1) in
      take (S e) str
  end.

(** What the claims call "free of leading and trailing whitespace" and
    "consisting only of whitespace". *)
Definition is_trimmed (s : string) : bool :=
  match s with
  | EmptyString => true
  | String c _ =>
      negb (isspace c) && negb (isspace (char_at s (String.length s - 1)))
  end.

Fixpoint all_space (s : string) : bool :=
  match s with
  | EmptyString => true
  | String c s' => isspace c && all_space s'
  end.

End CStr.

Import CStr.

(* ================================================================== *)
(** * The world outside the program, and the monad the code runs in *)
(* ================================================================== *)

Definition SOCKET := Z.

(** What one [recv] call finds on the connection: bytes that have arrived,
    or a transport failure.  An empty arrival, and a script that has run out,
    stand for the peer having closed (recv returns 0). *)
Inductive arrival : Type :=
  | Data (bytes : list ascii)
  | Failure.

(** Observable actions, in program order. *)
Inductive event : Type :=
  | Printf (text : string)
  | Send (sock : SOCKET) (data : string) (len : Z) (ret : Z)
  | CloseSocket (sock : SOCKET).

Record World : Type := mkWorld {
  incoming : list arrival;      (* what successive recv calls will find *)
  send_returns : list Z;        (* what successive send calls will return;
                                   when exhausted, send accepts everything *)
  stack_bytes : nat -> ascii;   (* the indeterminate bytes an uninitialised
                                   automatic array starts with *)
  last_error : Z;               (* what WSAGetLastError reports *)
  trace : list event            (* actions performed so far *)
}.

Definition with_incoming (w : World) (i : list arrival) : World :=
  mkWorld i (send_returns w) (stack_bytes w) (last_error w) (trace w).

Definition with_send_returns (w : World) (r : list Z) : World :=
  mkWorld (incoming w) r (stack_bytes w) (last_error w) (trace w).

Definition with_event (w : World) (e : event) : World :=
  mkWorld (incoming w) (send_returns w) (stack_bytes w) (last_error w)
          (trace w ++ [e]).

Inductive fault : Type :=
  | OutOfBounds      (* read or write outside an array *)
  | NullArgument     (* NULL passed where a string is dereferenced *)
  | BadArraySize     (* variable-length array of non-positive size *)
  | FuelExhausted.   (* the model's loop bound was too small: never happens,
                        see [http_decode_fuel] and [new_request_fuel] *)

Inductive outcome (A : Type) : Type :=
  | Done (a : A)
  | Fault (f : fault).
Arguments Done {A} a.
Arguments Fault {A} f.

Definition M (A : Type) : Type := World -> outcome (A * World).

Definition ret {A} (a : A) : M A := fun w => Done (a, w).

Definition bind {A B} (m : M A) (k : A -> M B) : M B :=
  fun w => match m w with
           | Done (a, w') => k a w'
           | Fault f => Fault f
           end.

Definition fail {A} (f : fault) : M A := fun _ => Fault f.

Definition lift {A} (o : outcome A) : M A :=
  fun w => match o with Done a => Done (a, w) | Fault f => Fault f end.

Declare Scope monad_scope.
Delimit Scope monad_scope with monad.
Notation "x <- m ;; k" := (bind m (fun x => k))
  (at level 61, m at next level, right associativity) : monad_scope.
Notation "m ;; k" := (bind m (fun _ => k))
  (at level 61, right associativity) : monad_scope.
Notation "' pat <- m ;; k" := (bind m (fun x => match x with pat => k end))
  (at level 61, pat pattern, m at next level, right associativity) : monad_scope.
Open Scope monad_scope.

Definition emit (e : event) : M unit := fun w => Done (tt, with_event w e).

Definition printf (text : string) : M unit := emit (Printf text).

Definition closesocket (s : SOCKET) : M unit := emit (CloseSocket s).

Definition WSAGetLastError : M Z := fun w => Done (last_error w, w).

(** [send (s, data, len, 0)]: the return value comes from the environment. *)
Definition send (s : SOCKET) (data : string) (len : Z) : M Z :=
  fun w =>
    let '(r, rest) := match send_returns w with
                      | [] => (len, [])
                      | r :: rest => (r, rest)
                      end in
    Done (r, with_event (with_send_returns w rest) (Send s data len r)).

(** [recv (s, buf, cap, 0)]: the return value and the bytes stored at [buf].
    At most [cap] bytes are taken; what does not fit stays on the
    connection. *)
Definition recv (s : SOCKET) (cap : Z) : M (Z * list ascii) :=
  fun w =>
    match incoming w with
    | [] => Done ((0, []), w)
    | Failure :: rest => Done ((-1, []), with_incoming w rest)
    | Data bytes :: rest =>
        let n := Nat.min (List.length bytes) (Z.to_nat cap) in
        let rest' := match skipn n bytes with
                     | [] => rest
                     | more => Data more :: rest
                     end in
        Done ((Z.of_nat n, firstn n bytes), with_incoming w rest')
    end.

(* ================================================================== *)
(** * Data model *)
(* ================================================================== *)

Record Configuration : Type := mkConfiguration {
  port : Z;
  max_reqsize : Z;
  max_ressize : Z;
  listening : bool
}.

(** One node of the linked list; the list itself is the chain of [next]. *)
Record Header : Type := mkHeader {
  name : string;
  value : string
}.

Record Request : Type := mkRequest {
  req_connection : SOCKET;
  req_header_count : Z;
  req_headers : list Header;
  method : option string;
  path : option string;
  req_http_version : option string
}.

Record Response : Type := mkResponse {
  connection : SOCKET;
  header_count : Z;
  headers : list Header;
  code : Z;
  http_version : option string;
  body : string;
  encoded_response : option string
}.

Record HttpStatus : Type := mkHttpStatus {
  status_code : Z;
  reason_phrase : option string
}.

(* ================================================================== *)
(** * Request parser *)
(* ================================================================== *)

Definition set_method (r : Request) (m : option string) : Request :=
  mkRequest (req_connection r) (req_header_count r) (req_headers r)
            m (path r) (req_http_version r).

Definition set_path_version (r : Request) (p v : option string) : Request :=
  mkRequest (req_connection r) (req_header_count r) (req_headers r)
            (method r) p v.

Definition push_header (r : Request) (h : Header) : Request :=
  mkRequest (req_connection r) (req_header_count r + 1) (h :: req_headers r)
            (method r) (path r) (req_http_version r).

Definition parse_status_line (line : string) (request : Request)
  : bool * Request :=
  match strchr line " " with
  | None => (false, request)
  | Some space1 =>
      let request := set_method request (Some (take space1 line)) in
      let after1 := drop (S space1) line in
      match strchr after1 " " with
      | None => (false, request)
      | Some space2 =>
          (true, set_path_version request
                   (Some (take space2 after1))
                   (Some (drop (S space2) after1)))
      end
  end.

Definition parse_header_line (line : string) (request : Request)
  : bool * Request :=
  match strchr line ":" with
  | None => (false, request)
  | Some colon =>
      let name := trim_whitespace (take colon line) in
      let value := trim_whitespace (drop (S colon) line) in
      (true, push_header request (mkHeader name value))
  end.

Definition LF : ascii := "010".
Definition CR : ascii := "013".

(** The [while ((line = strtok_r (NULL, "\n", &saveptr)))] loop.  Every
    token takes at least one character off the saved text, so its length
    bounds the number of iterations. *)
Fixpoint header_loop (fuel : nat) (saveptr : string) (request : Request)
  : M Request :=
  match strtok_r saveptr LF with
  | None => ret request
  | Some (line, saveptr') =>
      match fuel with
      | O => fail FuelExhausted
      | S fuel' =>
          let '(ok, request') := parse_header_line line request in
          if ok then header_loop fuel' saveptr' request'
          else
            printf ("Malformed request. Failed to parse header line: "
                      ++ line ++ String LF EmptyString) ;;
            ret (set_method request' None)
      end
  end.

Definition new_request (connection : SOCKET) (headers : string) : M Request :=
  let request := mkRequest connection 0 [] None None None in
  match strtok_r headers LF with
  | None => ret request
  | Some (line, saveptr) =>
      let '(ok, request') := parse_status_line line request in
      if ok then header_loop (String.length saveptr) saveptr request'
      else ret request'
  end.

(* ================================================================== *)
(** * Status table *)
(* ================================================================== *)

Definition STATUS_TABLE_SIZE : Z := 512.
Definition INT_MAX : Z := 2147483647.
Definition SOCKET_ERROR : Z := -1.

(** [a[i] = x] for an index inside the array. *)
Fixpoint store {A} (a : list A) (i : nat) (x : A) : list A :=
  match a, i with
  | [], _ => []
  | _ :: a', O => x :: a'
  | y :: a', S i' => y :: store a' i' x
  end.

(** The table after [init_status_tbl]: all zero, then three entries. *)
Definition init_status_tbl : list HttpStatus :=
  let zeroed := repeat (mkHttpStatus 0 None) (Z.to_nat STATUS_TABLE_SIZE) in
  let t := store zeroed (Z.to_nat (200 mod STATUS_TABLE_SIZE))
                 (mkHttpStatus 200 (Some "OK")) in
  let t := store t (Z.to_nat (201 mod STATUS_TABLE_SIZE))
                 (mkHttpStatus 201 (Some "Created")) in
  store t (Z.to_nat (204 mod STATUS_TABLE_SIZE))
        (mkHttpStatus 204 (Some "No Content")).

(** The global [statuses], as every connection finds it: [main] fills it
    before the first [accept]. *)
Definition statuses : list HttpStatus := init_status_tbl.

(** [reason]: C's [%] truncates toward zero ([Z.rem]), so a negative code
    gives a negative index, outside the array.  What is read there is not
    modelled; status codes are non-negative, and every statement about
    [reason] below is for a code from 0 on. *)
Definition reason (code : Z) : outcome (option string) :=
  let index := Z.rem code STATUS_TABLE_SIZE in
  if index <? 0 then Fault OutOfBounds
  else match nth_error statuses (Z.to_nat index) with
       | None => Fault OutOfBounds
       | Some st =>
           if status_code st =? code then Done (reason_phrase st)
           else Done None
       end.

(* ================================================================== *)
(** * Response encoder *)
(* ================================================================== *)

Definition add_header (response : Response) (name value : string) : Response :=
  mkResponse (connection response)
             (header_count response + 1)
             (headers response ++ [mkHeader name value])
             (code response) (http_version response) (body response)
             (encoded_response response).

Definition set_encoded (response : Response) (e : option string) : Response :=
  mkResponse (connection response) (header_count response) (headers response)
             (code response) (http_version response) (body response) e.

(** The text written into [status[64]] is at most 9 + 11 + 1 + 10 characters
    (the longest reason is "No Content"), so it always fits. *)
Definition construct_status_line (response : Response) : M (option string) :=
  reason_str <- lift (reason (code response)) ;;
  match reason_str with
  | None =>
      printf ("Unrecognized reason for code: " ++ decimal (code response)) ;;
      ret None
  | Some reason_str =>
      ret (Some (crlf ("HTTP/1.1 " ++ decimal (code response)
                         ++ " " ++ reason_str)))
  end.

Definition header_line (h : Header) : string :=
  name h ++ ": " ++ value h ++ crlf "".

Fixpoint header_lines (hs : list Header) : string :=
  match hs with
  | [] => ""
  | h :: hs' => header_line h ++ header_lines hs'
  end.

(** [construct_headers]: the lines are appended into a block of
    [header_count * 2 * 80] bytes, terminator included. *)
Definition construct_headers (response : Response) : outcome string :=
  let size := header_count response * 2 * 80 in
  let headers_str := header_lines (headers response) in
  if (size <=? INT_MAX) && (Z.of_nat (String.length headers_str) + 1 <=? size)
  then Done headers_str
  else Fault OutOfBounds.

(** [encode].  [body_str[20]] holds the decimal length of any body shorter
    than 10^19 bytes, which every object in memory is. *)
Definition encode (response : Response) : M Response :=
  status_line <- construct_status_line response ;;
  match status_line with
  | None => ret response
  | Some status_line =>
      let body_length := Z.of_nat (String.length (body response)) in
      let body_str := decimal body_length in
      let response := add_header response "Content-Length" body_str in
      let response := add_header response "Connection" "close" in
      headers_str <- lift (construct_headers response) ;;
      let encoded := status_line ++ headers_str ++ crlf ""
                       ++ body response in
      ret (set_encoded response (Some encoded))
  end.

(** Releasing memory has no observable effect. *)
Definition free_response (response : Response) : M unit := ret tt.

(** Conversion of an [int] to [size_t], taken as 64 bits wide (with 32 bits
    nothing below changes). *)
Definition to_size_t (z : Z) : Z := z mod 2 ^ 64.

(** Conversion of a [size_t] to [int]. *)
Definition to_int (z : Z) : Z := (z + 2 ^ 31) mod 2 ^ 32 - 2 ^ 31.

Definition send_response (configuration : Configuration) (response : Response)
  : M unit :=
  response <- encode response ;;
  match encoded_response response with
  | None =>
      printf "No encoded response to send" ;;
      free_response response
  | Some encoded =>
      let response_length := Z.of_nat (String.length encoded) in
      if response_length >=? to_size_t (max_ressize configuration) then
        printf ("Attempted to send response that exceeds configuration->max_ressize. Response size: "
                  ++ decimal response_length) ;;
        free_response response
      else
        bytes_sent <- send (connection response) encoded
                           (to_int response_length) ;;
        if bytes_sent =? SOCKET_ERROR then
          err <- WSAGetLastError ;;
          printf ("Unable to write response to client, failed with error: "
                    ++ decimal err ++ String LF EmptyString) ;;
          free_response response
        else
          (if negb (bytes_sent =? to_int response_length) then
             printf ("Warning: Not all bytes sent. Bytes sent: "
                       ++ decimal bytes_sent ++ ", Expected: "
                       ++ decimal response_length ++ String LF EmptyString)
           else ret tt) ;;
          free_response response
  end.

(* ================================================================== *)
(** * Frame reader *)
(* ================================================================== *)

(** The C string that starts at offset [off] of an array: the bytes up to
    the first NUL.  Running off the array before a NUL is a fault. *)
Fixpoint cstring_from (mem : list ascii) : outcome string :=
  match mem with
  | [] => Fault OutOfBounds
  | c :: mem' =>
      if Ascii.eqb c zero then Done EmptyString
      else match cstring_from mem' with
           | Done s => Done (String c s)
           | Fault f => Fault f
           end
  end.

Definition cstring_at (mem : list ascii) (off : nat) : outcome string :=
  cstring_from (skipn off mem).

(** [strstr hay needle] as an offset from [hay]; [None] is NULL. *)
Fixpoint strstr (hay needle : string) : option nat :=
  if prefix needle hay then Some O
  else match hay with
       | EmptyString => None
       | String _ hay' => option_map S (strstr hay' needle)
       end.

(** The bytes [data] stored from offset [off] on (they fit: [recv] is given
    the room that is left). *)
Fixpoint write_at (mem : list ascii) (off : nat) (data : list ascii)
  : list ascii :=
  match mem with
  | [] => []
  | c :: mem' =>
      match off with
      | S off' => c :: write_at mem' off' data
      | O =>
          match data with
          | [] => mem
          | d :: data' => d :: write_at mem' O data'
          end
      end
  end.

Definition separator : string := crlf (crlf "").

(** The code after the loop: terminate the buffer at [read_ptr] and hand
    it out as the header text when something was read. *)
Definition decode_finish (buffer : list ascii) (read_ptr : Z)
  : M (option string * option string) :=
  if (0 <=? read_ptr) && (read_ptr <? Z.of_nat (List.length buffer)) then
    let buffer := store buffer (Z.to_nat read_ptr) zero in
    if 0 <? read_ptr then
      headers <- lift (cstring_at buffer 0) ;;
      ret (Some headers, None)
    else ret (None, None)
  else fail OutOfBounds.

(** The receive loop.  Each iteration that continues adds at least one byte
    to [read_ptr], so [max_reqsize] iterations are always enough. *)
Fixpoint decode_loop (fuel : nat) (sock : SOCKET)
    (configuration : Configuration) (buffer : list ascii) (read_ptr : Z)
  : M (option string * option string) :=
  if read_ptr <? max_reqsize configuration - 1 then
    match fuel with
    | O => fail FuelExhausted
    | S fuel' =>
        '(bytes_read, data) <-
           recv sock (max_reqsize configuration - read_ptr) ;;
        if bytes_read <=? 0 then decode_finish buffer read_ptr
        else
          let buffer := write_at buffer (Z.to_nat read_ptr) data in
          let read_ptr := read_ptr + bytes_read in
          text <- lift (cstring_at buffer 0) ;;
          match strstr text separator with
          | Some body_start =>
              let headers_length := body_start in
              ret (Some (take headers_length text),
                   Some (drop (body_start + 4) text))
          | None => decode_loop fuel' sock configuration buffer read_ptr
          end
    end
  else decode_finish buffer read_ptr.

Definition http_decode (sock : SOCKET) (configuration : Configuration)
  : M (option string * option string) :=
  fun w =>
    if max_reqsize configuration <=? 0 then Fault BadArraySize
    else
      let size := Z.to_nat (max_reqsize configuration) in
      let buffer := map (stack_bytes w) (seq 0 size) in
      decode_loop size sock configuration buffer 0 w.

(* ================================================================== *)
(** * Request handler *)
(* ================================================================== *)

(** A [char *] argument that the callee reads (a [%s] of [printf], the
    argument of [strdup]): with NULL the behaviour is undefined, and the
    run is not followed further. *)
Definition deref (p : option string) : M string :=
  match p with
  | Some s => ret s
  | None => fail NullArgument
  end.

Definition strdup (p : option string) : M string := deref p.

Fixpoint display_headers (hs : list Header) : M unit :=
  match hs with
  | [] => ret tt
  | h :: hs' =>
      printf (String "009" "- " ++ name h ++ ": " ++ value h
                ++ String LF EmptyString) ;;
      display_headers hs'
  end.

Definition display_request_details (request : Request) (body : option string)
  : M unit :=
  m <- deref (method request) ;;
  p <- deref (path request) ;;
  v <- deref (req_http_version request) ;;
  printf ("Resource requested: " ++ m ++ " " ++ p ++ " " ++ v
            ++ String LF EmptyString) ;;
  printf ("Headers:" ++ String LF EmptyString) ;;
  display_headers (req_headers request) ;;
  printf ("Body:" ++ String LF EmptyString) ;;
  match body with
  | Some b => printf (b ++ String LF (String LF EmptyString))
  | None => ret tt
  end.

Definition free_request (request : Request) : M unit :=
  closesocket (req_connection request).

Definition free_request_resources (request : Request)
    (headers : option string) (body : option string) : M unit :=
  free_request request.

(** The fixed body [handle_request] answers with. *)
Definition hello_page : string := "<html><body><h4>Hello</h4></body></html>".

(** The test [request.method != NULL] that guards the response. *)
Definition method_is_set (request : Request) : bool :=
  match method request with
  | Some _ => true
  | None => false
  end.

Definition handle_request (connection : SOCKET) (configuration : Configuration)
  : M unit :=
  '(headers, body) <- http_decode connection configuration ;;
  match headers with
  | None =>
      printf "Failed to parse headers from client" ;;
      closesocket connection
  | Some headers_text =>
      request <- new_request connection headers_text ;;
      (if method_is_set request then
         display_request_details request body ;;
         version <- strdup (req_http_version request) ;;
         let response :=
           mkResponse (req_connection request) 0 [] 200 (Some version)
                      hello_page None in
         send_response configuration response
       else ret tt) ;;
      free_request_resources request headers body
  end.

(* ================================================================== *)
(** * Vocabulary of the statements *)
(* ================================================================== *)

(** The lines the parser sees in a header text: the successive tokens
    [strtok_r] cuts at line feeds. *)
Fixpoint tokens (fuel : nat) (s : string) : list string :=
  match fuel with
  | O => []
  | S fuel' =>
      match strtok_r s LF with
      | None => []
      | Some (line, saveptr) => line :: tokens fuel' saveptr
      end
  end.

Definition lines_of (headers : string) : list string :=
  tokens (String.length headers) headers.

(** A header line written as its two sides around the first colon, and the
    entry the parser is to store for it. *)
Definition line_of (p : string * string) : string :=
  fst p ++ String ":" (snd p).

Definition entry_of (p : string * string) : Header :=
  mkHeader (trim_whitespace (fst p)) (trim_whitespace (snd p)).

Definition colon_free (p : string * string) : Prop :=
  count_char ":" (fst p) = O.

(** The other way round: a line that has a colon, its two sides, and the
    entry for it (trimmed name, trimmed value). *)
Definition has_colon (line : string) : Prop := count_char ":" line <> O.

Definition split_colon (line : string) : string * string :=
  (take (strcspn line ":") line, drop (S (strcspn line ":")) line).

Definition header_of_line (line : string) : Header :=
  entry_of (split_colon line).

(** A request line written as its three parts. *)
Definition request_line (m p v : string) : string :=
  m ++ String " " (p ++ String " " v).

(** The request after the entries [hs] have been pushed one by one. *)
Definition push_all (r : Request) (hs : list Header) : Request :=
  fold_left push_header hs r.

(** A response as a caller prepares it: the zero-initialised structure of
    [handle_request], then one [add_header] call per header. *)
Definition fresh_response (conn : SOCKET) (c : Z) (version : option string)
    (b : string) : Response :=
  mkResponse conn 0 [] c version b None.

Definition response_with (conn : SOCKET) (c : Z) (version : option string)
    (b : string) (hs : list Header) : Response :=
  fold_left (fun r h => add_header r (name h) (value h)) hs
            (fresh_response conn c version b).

(** The two headers [encode] adds. *)
Definition content_length_header (b : string) : Header :=
  mkHeader "Content-Length" (decimal (Z.of_nat (String.length b))).

Definition connection_close : Header := mkHeader "Connection" "close".

Definition synthesized (b : string) : list Header :=
  [content_length_header b; connection_close].

(** The number a decimal text stands for. *)
Definition read_decimal (s : string) : option Z :=
  option_map Z.of_int (NilZero.int_of_string s).

(** The status line the code writes for a code and its reason phrase. *)
Definition status_line_of (c : Z) (phrase : string) : string :=
  crlf ("HTTP/1.1 " ++ decimal c ++ " " ++ phrase).

(** The calls to [send] in a trace. *)
Definition is_send (e : event) : bool :=
  match e with
  | Send _ _ _ _ => true
  | _ => false
  end.

Definition sends (t : list event) : list event := filter is_send t.

(** A string of [n] letters. *)
Definition filler (n : nat) : string :=
  string_of_list_ascii (repeat "a"%char n).

(** The codes [init_status_tbl] enters, with their phrases. *)
Definition known (c : Z) (phrase : string) : Prop :=
  (c = 200 /\ phrase = "OK") \/ (c = 201 /\ phrase = "Created") \/
  (c = 204 /\ phrase = "No Content").

(** The bytes [handle_request] has to send for its fixed response. *)
Definition hello_encoded : string :=
  status_line_of 200 "OK" ++ header_lines (synthesized hello_page)
    ++ crlf "" ++ hello_page.

(** ** The frame reader as the specification words it *)

Definition nul_free (bytes : list ascii) : Prop :=
  Forall (fun c => c <> zero) bytes.

Definition arrival_bytes (a : arrival) : list ascii :=
  match a with
  | Data bytes => bytes
  | Failure => []
  end.

Definition total_bytes (arrivals : list arrival) : nat :=
  fold_right (fun a n => (List.length (arrival_bytes a) + n)%nat) O arrivals.

(** The buffer region of the stack happens to hold zeros. *)
Definition zeroed (w : World) (n : nat) : Prop :=
  forall i, (i < n)%nat -> stack_bytes w i = zero.

(** A second definition, written from the specification's sentence, to
    compare [http_decode] with: receive until the separator shows up in the
    bytes accumulated so far (split there), or until at most one byte of the
    capacity is left or the connection yields nothing (all accumulated bytes
    are the header text, NULL when there are none; no body). *)
Fixpoint frame (capacity : nat) (acc : list ascii) (arrivals : list arrival)
  : option string * option string :=
  let no_split :=
    (match acc with
     | [] => None
     | _ :: _ => Some (string_of_list_ascii acc)
     end, None) in
  if (capacity - 1 <=? List.length acc)%nat then no_split
  else match arrivals with
       | Data (b :: bytes) :: rest =>
           let acc' := (acc ++ b :: bytes)%list in
           let text := string_of_list_ascii acc' in
           match strstr text separator with
           | Some k => (Some (take k text), Some (drop (k + 4) text))
           | None => frame capacity acc' rest
           end
       | _ => no_split
       end.

(** ** Vocabulary of the further properties *)

(** A stored request header as the parser leaves it: both sides trimmed,
    no colon in the name. *)
Definition tidy (h : Header) : Prop :=
  is_trimmed (name h) = true /\ is_trimmed (value h) = true /\
  count_char ":" (name h) = O.

(** The request [new_request] starts from. *)
Definition blank_request (conn : SOCKET) : Request :=
  mkRequest conn 0 [] None None None.

(** A header that survives the wire format: tidy, and no line feed in
    either side. *)
Definition wire_safe (h : Header) : Prop :=
  tidy h /\ count_char LF (name h) = O /\ count_char LF (value h) = O.

(** The count matches the list and every entry is tidy. *)
Definition counted_and_tidy (r : Request) : Prop :=
  req_header_count r = Z.of_nat (List.length (req_headers r)) /\
  Forall tidy (req_headers r).

(** A header line as [construct_headers] writes it, without its line feed. *)
Definition wire_line (h : Header) : string :=
  name h ++ ": " ++ value h ++ String CR "".

(** What the next [send] call will return, and what [send_response] prints
    about it. *)
Definition next_send_return (w : World) (len : Z) : Z :=
  match send_returns w with
  | [] => len
  | r :: _ => r
  end.

Definition send_report (ret len err : Z) : list event :=
  if ret =? SOCKET_ERROR then
    [Printf ("Unable to write response to client, failed with error: "
               ++ decimal err ++ String LF EmptyString)]
  else if negb (ret =? len) then
    [Printf ("Warning: Not all bytes sent. Bytes sent: "
               ++ decimal ret ++ ", Expected: "
               ++ decimal len ++ String LF EmptyString)]
  else [].

(** The calls to [closesocket] in a trace. *)
Definition is_close (e : event) : bool :=
  match e with
  | CloseSocket _ => true
  | _ => false
  end.

Definition closes (t : list event) : list event := filter is_close t.

(** The first [recv] finds nothing: the peer has closed, or the transport
    failed. *)
Definition nothing_arrives (arrivals : list arrival) : Prop :=
  match arrivals with
  | [] => True
  | Failure :: _ => True
  | Data [] :: _ => True
  | Data (_ :: _) :: _ => False
  end.

(** The header texts that leave the method set (see
    [new_request_method_set]). *)
Definition answerable (headers : string) : Prop :=
  exists line rest,
    lines_of headers = line :: rest /\
    (count_char " " line = 1%nat \/
     ((2 <= count_char " " line)%nat /\ Forall has_colon rest)).

(** A stage that neither sends nor closes. *)
Definition silent (w w' : World) : Prop :=
  sends (trace w') = sends (trace w) /\ closes (trace w') = closes (trace w).

(** The text of the first [k] arrivals of a connection. *)
Definition received (k : nat) (arrivals : list arrival) : string :=
  string_of_list_ascii (List.concat (map arrival_bytes (firstn k arrivals))).

(** The diagnostic of the header loop. *)
Definition malformed_diagnostic (line : string) : event :=
  Printf ("Malformed request. Failed to parse header line: "
            ++ line ++ String LF EmptyString).

(* ================================================================== *)
(** * Facts about C strings *)
(* ================================================================== *)

Section StringFacts.

Lemma take_all (s : string) : take (String.length s) s = s.
Proof. induction s as [|c s IH]; simpl; [reflexivity | now rewrite IH]. Qed.

Lemma take_length (n : nat) (s : string) :
  (n <= String.length s)%nat -> String.length (take n s) = n.
Proof.
  revert s; induction n as [|n IH]; intros [|c s] H; simpl in *;
    try reflexivity; try lia.
  rewrite IH by lia. reflexivity.
Qed.

Lemma char_at_take (n k : nat) (s : string) :
  (k < n)%nat -> char_at (take n s) k = char_at s k.
Proof.
  revert k s; induction n as [|n IH]; intros k [|c s] H; simpl;
    try reflexivity; try lia.
  destruct k as [|k]; [reflexivity | apply IH; lia].
Qed.

Lemma take_drop (n : nat) (s : string) : take n s ++ drop n s = s.
Proof.
  revert s; induction n as [|n IH]; intros [|c s]; simpl;
    try reflexivity.
  now rewrite IH.
Qed.

Lemma scan_back_le (str : string) (e : nat) : (scan_back str e <= e)%nat.
Proof.
  induction e as [|e IH]; simpl; [lia|].
  destruct (isspace _); lia.
Qed.

Lemma scan_back_stops (str : string) (e : nat) :
  scan_back str e = O \/ isspace (char_at str (scan_back str e)) = false.
Proof.
  induction e as [|e IH]; simpl; [now left|].
  destruct (isspace (char_at str (S e))) eqn:E; [exact IH | now right].
Qed.

Lemma scan_back_fixed (str : string) (e : nat) :
  isspace (char_at str e) = false -> scan_back str e = e.
Proof. destruct e as [|e]; simpl; intros H; [reflexivity | now rewrite H]. Qed.

Lemma skip_space_all (s : string) : all_space s = true -> skip_space s = "".
Proof.
  induction s as [|c s IH]; simpl; [reflexivity|].
  intros H; apply andb_true_iff in H as [Hc Hs]. now rewrite Hc, IH.
Qed.

(** The result of the first loop is empty or starts with a non-space. *)
Lemma skip_space_head (s : string) :
  match skip_space s with
  | EmptyString => True
  | String c _ => isspace c = false
  end.
Proof.
  induction s as [|c s IH]; simpl; [exact I|].
  destruct (isspace c) eqn:E; [exact IH | exact E].
Qed.

Lemma trim_of_trimmed (s : string) :
  is_trimmed s = true -> trim_whitespace s = s.
Proof.
  destruct s as [|c s]; [reflexivity|].
  unfold is_trimmed, trim_whitespace.
  intros H; apply andb_true_iff in H as [Hc He].
  apply negb_true_iff in Hc, He.
  cbn [skip_space]. rewrite Hc.
  rewrite (scan_back_fixed _ _ He).
  cbn [String.length]. rewrite Nat.sub_1_r, Nat.pred_succ.
  change (S (String.length s)) with (String.length (String c s)).
  apply take_all.
Qed.

Lemma trim_is_trimmed (s : string) : is_trimmed (trim_whitespace s) = true.
Proof.
  unfold trim_whitespace.
  pose proof (skip_space_head s) as Hh.
  destruct (skip_space s) as [|c t]; [reflexivity|].
  set (str := String c t) in *.
  set (e := scan_back str (String.length str - 1)).
  assert (Hle : (e <= String.length str - 1)%nat) by apply scan_back_le.
  assert (Hlen : String.length (take (S e) str) = S e).
  { apply take_length. subst str. simpl in *. lia. }
  assert (Hlast : isspace (char_at str e) = false).
  { destruct (scan_back_stops str (String.length str - 1)) as [H0|H1].
    - fold e in H0. rewrite H0. exact Hh.
    - exact H1. }
  assert (Hunf : is_trimmed (take (S e) str) =
                 negb (isspace c) &&
                 negb (isspace (char_at (take (S e) str)
                                  (String.length (take (S e) str) - 1))))
    by reflexivity.
  rewrite Hunf, Hh, Hlen, Nat.sub_1_r, Nat.pred_succ.
  rewrite char_at_take by lia. now rewrite Hlast.
Qed.

End StringFacts.

(** C9.  Trimming is idempotent: a string with no whitespace at either end
    is returned unchanged, a string of whitespace only trims to the empty
    string, and trimming a trimmed result changes nothing. *)
Theorem trim_whitespace_idempotent :
  (forall s, is_trimmed s = true -> trim_whitespace s = s) /\
  (forall s, all_space s = true -> trim_whitespace s = "") /\
  (forall s, trim_whitespace (trim_whitespace s) = trim_whitespace s).
Proof.
  split; [exact trim_of_trimmed | split].
  - intros s H. unfold trim_whitespace. now rewrite (skip_space_all s H).
  - intros s. apply trim_of_trimmed, trim_is_trimmed.
Qed.

Lemma trim_whitespace_idempotent_witness :
  trim_whitespace "Host: x" = "Host: x" /\
  trim_whitespace (String " " (String "009" (String CR (String LF "")))) = "" /\
  trim_whitespace (trim_whitespace "  a b  ") = trim_whitespace "  a b  ".
Proof.
  destruct trim_whitespace_idempotent as [H1 [H2 H3]].
  split; [apply H1; reflexivity | split; [apply H2; reflexivity | apply H3]].
Defined.

(* ================================================================== *)
(** * Request parser: tokens, lines and the claims about them *)
(* ================================================================== *)
Section ParserFacts.

Lemma strchr_absent (c : ascii) (s : string) :
  count_char c s = O -> strchr s c = None.
Proof.
  induction s as [|a s IH]; simpl; [reflexivity|].
  destruct (Ascii.eqb a c); [discriminate|].
  intros H. now rewrite IH.
Qed.

Lemma strchr_first (c : ascii) (m r : string) :
  count_char c m = O -> strchr (m ++ String c r) c = Some (String.length m).
Proof.
  induction m as [|a m IH]; simpl.
  - now rewrite Ascii.eqb_refl.
  - destruct (Ascii.eqb a c); [discriminate|].
    intros H. now rewrite IH.
Qed.

Lemma take_app (m r : string) : take (String.length m) (m ++ r) = m.
Proof.
  induction m as [|a m IH]; simpl; [now destruct r | now rewrite IH].
Qed.

Lemma drop_app (m r : string) : drop (String.length m) (m ++ r) = r.
Proof. induction m as [|a m IH]; simpl; [reflexivity | exact IH]. Qed.

Lemma drop_app_S (m r : string) (c : ascii) :
  drop (S (String.length m)) (m ++ String c r) = r.
Proof. induction m as [|a m IH]; simpl; [reflexivity | exact IH]. Qed.

Lemma count_char_one (c : ascii) (s : string) :
  count_char c s = 1%nat ->
  exists m r, s = m ++ String c r /\
              count_char c m = O /\ count_char c r = O.
Proof.
  induction s as [|a s IH]; simpl; [discriminate|].
  destruct (Ascii.eqb a c) eqn:E.
  - apply Ascii.eqb_eq in E; subst a. intros H.
    exists "", s. repeat split; simpl; lia.
  - intros H. destruct (IH H) as (m & r & -> & Hm & Hr).
    exists (String a m), r. simpl. rewrite E. auto.
Qed.

Lemma drop_length (n : nat) (s : string) :
  String.length (drop n s) = (String.length s - n)%nat.
Proof.
  revert s; induction n as [|n IH]; intros [|a s]; simpl;
    try reflexivity; try lia.
  apply IH.
Qed.

(** Every token uses up at least one character of the saved text. *)
Lemma strtok_r_shorter (s line saveptr : string) (d : ascii) :
  strtok_r s d = Some (line, saveptr) ->
  (String.length saveptr < String.length s)%nat.
Proof.
  unfold strtok_r.
  pose proof (drop_length (strspn s d) s) as Hd.
  destruct (drop (strspn s d) s) as [|a t] eqn:E; [discriminate|].
  intros [= _ <-]. rewrite drop_length. simpl in *. lia.
Qed.

Lemma tokens_fuel (n : nat) (s : string) :
  (String.length s <= n)%nat -> tokens n s = lines_of s.
Proof.
  unfold lines_of.
  remember (String.length s) as k eqn:Hk.
  revert s Hk n.
  induction k as [k IH] using lt_wf_ind; intros s Hk n Hn.
  destruct n as [|n].
  - assert (k = O) by lia. subst k. now rewrite H.
  - simpl. destruct (strtok_r s LF) as [[line sp]|] eqn:E.
    + pose proof (strtok_r_shorter _ _ _ _ E) as Hs.
      destruct k as [|k]; [lia|]. simpl. rewrite E. f_equal.
      rewrite (IH (String.length sp)) by lia.
      symmetry. apply (IH (String.length sp)); lia.
    + destruct k; simpl; [reflexivity | now rewrite E].
Qed.

Lemma lines_of_step (s line saveptr : string) :
  strtok_r s LF = Some (line, saveptr) ->
  lines_of s = line :: lines_of saveptr.
Proof.
  intros E. pose proof (strtok_r_shorter _ _ _ _ E) as Hs.
  unfold lines_of at 1.
  destruct (String.length s) as [|k] eqn:Hk; [lia|].
  simpl. rewrite E. f_equal. apply tokens_fuel. lia.
Qed.

Lemma lines_of_done (s : string) : strtok_r s LF = None -> lines_of s = [].
Proof.
  intros E. unfold lines_of. destruct (String.length s); simpl;
    [reflexivity | now rewrite E].
Qed.

Lemma lines_of_cons (s line : string) (rest : list string) :
  lines_of s = line :: rest ->
  exists saveptr, strtok_r s LF = Some (line, saveptr) /\
                  lines_of saveptr = rest.
Proof.
  intros H. destruct (strtok_r s LF) as [[l sp]|] eqn:E.
  - rewrite (lines_of_step _ _ _ E) in H. injection H as -> <-.
    now exists sp.
  - now rewrite (lines_of_done _ E) in H.
Qed.

Lemma split_colon_line (line : string) :
  has_colon line ->
  line_of (split_colon line) = line /\ colon_free (split_colon line).
Proof.
  unfold has_colon, line_of, colon_free, split_colon; cbn [fst snd].
  induction line as [|a l IH]; cbn [count_char strcspn]; [congruence|].
  destruct (Ascii.eqb a ":") eqn:E.
  - apply Ascii.eqb_eq in E; subst a. intros _. now split.
  - intros H. destruct (IH H) as [H1 H2].
    cbn [take drop append count_char]. rewrite E. split; [|exact H2].
    f_equal. exact H1.
Qed.

Lemma split_colon_lines (lines : list string) :
  Forall has_colon lines ->
  map line_of (map split_colon lines) = lines /\
  Forall colon_free (map split_colon lines).
Proof.
  induction 1 as [|l ls Hl _ [IH1 IH2]]; cbn [map]; [now split|].
  destruct (split_colon_line l Hl) as [H1 H2].
  split; [now rewrite H1, IH1 | now constructor].
Qed.

Lemma has_colon_dec (line : string) : {has_colon line} + {~ has_colon line}.
Proof.
  unfold has_colon. destruct (Nat.eq_dec (count_char ":" line) 0);
    [right | left]; auto.
Qed.

(** A list of lines with a line without colon splits at the first one. *)
Lemma first_without_colon (lines : list string) :
  (exists bad, In bad lines /\ ~ has_colon bad) ->
  exists pre bad post,
    lines = (pre ++ bad :: post)%list /\
    Forall has_colon pre /\ ~ has_colon bad.
Proof.
  induction lines as [|l ls IH]; intros (bad & Hin & Hb); [destruct Hin|].
  destruct (has_colon_dec l) as [Hl|Hl].
  - destruct Hin as [->|Hin]; [contradiction|].
    destruct IH as (pre & b & post & -> & Hp & Hb'); [now exists bad|].
    exists (l :: pre), b, post. repeat split; auto.
  - exists [], l, ls. repeat split; auto.
Qed.

End ParserFacts.

Section RequestParser.

Variable conn : SOCKET.

Lemma parse_status_line_two_spaces (m p v : string) (r : Request) :
  count_char " " m = O -> count_char " " p = O ->
  parse_status_line (request_line m p v) r =
  (true, set_path_version (set_method r (Some m)) (Some p) (Some v)).
Proof.
  intros Hm Hp. unfold parse_status_line, request_line.
  rewrite (strchr_first " " m _ Hm), drop_app_S.
  rewrite (strchr_first " " p _ Hp), drop_app_S.
  now rewrite !take_app.
Qed.

Lemma parse_status_line_one_space (m t : string) (r : Request) :
  count_char " " m = O -> count_char " " t = O ->
  parse_status_line (m ++ String " " t) r = (false, set_method r (Some m)).
Proof.
  intros Hm Ht. unfold parse_status_line.
  rewrite (strchr_first " " m _ Hm), drop_app_S.
  now rewrite (strchr_absent " " t Ht), take_app.
Qed.

Lemma parse_status_line_no_space (line : string) (r : Request) :
  count_char " " line = O -> parse_status_line line r = (false, r).
Proof.
  intros H. unfold parse_status_line. now rewrite (strchr_absent _ _ H).
Qed.

Lemma parse_header_line_entry (p : string * string) (r : Request) :
  colon_free p ->
  parse_header_line (line_of p) r = (true, push_header r (entry_of p)).
Proof.
  destruct p as [n v]. unfold colon_free, line_of, entry_of; simpl.
  intros H. unfold parse_header_line.
  now rewrite (strchr_first ":" n _ H), drop_app_S, take_app.
Qed.

Lemma parse_header_line_no_colon (line : string) (r : Request) :
  count_char ":" line = O -> parse_header_line line r = (false, r).
Proof.
  intros H. unfold parse_header_line. now rewrite (strchr_absent _ _ H).
Qed.

Lemma push_all_fields (hs : list Header) (r : Request) :
  push_all r hs =
  mkRequest (req_connection r)
            (req_header_count r + Z.of_nat (List.length hs))
            (rev hs ++ req_headers r)
            (method r) (path r) (req_http_version r).
Proof.
  unfold push_all. revert r; induction hs as [|h hs IH]; intros r.
  - simpl. rewrite Z.add_0_r. now destruct r.
  - cbn [fold_left]. rewrite IH. unfold push_header; cbn [req_connection
      req_header_count req_headers method path req_http_version].
    f_equal.
    + cbn [List.length]. lia.
    + cbn [rev]. now rewrite <- app_assoc.
Qed.

(** A run of the loop over well-formed lines stores every one of them. *)
Lemma header_loop_well_formed (ps : list (string * string)) :
  forall fuel saveptr r w,
    (String.length saveptr <= fuel)%nat ->
    lines_of saveptr = map line_of ps ->
    Forall colon_free ps ->
    header_loop fuel saveptr r w = Done (push_all r (map entry_of ps), w).
Proof.
  induction ps as [|p ps IH]; intros fuel sp r w Hf Hl Hc.
  - destruct fuel; simpl;
      (destruct (strtok_r sp LF) as [[l s']|] eqn:E;
       [rewrite (lines_of_step _ _ _ E) in Hl; discriminate | reflexivity]).
  - cbn [map] in Hl. apply lines_of_cons in Hl as (sp' & E & Hl').
    pose proof (strtok_r_shorter _ _ _ _ E) as Hs.
    inversion Hc as [|? ? Hp Hps]; subst.
    destruct fuel as [|fuel]; [lia|].
    cbn [header_loop]. rewrite E, (parse_header_line_entry p r Hp).
    cbn iota. rewrite (IH fuel sp' _ w) by (auto; lia). reflexivity.
Qed.

(** A line without a colon ends the loop: the method is reset, one
    diagnostic is printed, and nothing after that line is looked at. *)
Lemma header_loop_malformed (pre : list (string * string)) :
  forall fuel saveptr bad post r w,
    (String.length saveptr <= fuel)%nat ->
    lines_of saveptr = (map line_of pre ++ bad :: post)%list ->
    Forall colon_free pre ->
    count_char ":" bad = O ->
    header_loop fuel saveptr r w =
    Done (set_method (push_all r (map entry_of pre)) None,
          with_event w (Printf
            ("Malformed request. Failed to parse header line: "
               ++ bad ++ String LF EmptyString))).
Proof.
  induction pre as [|p pre IH]; intros fuel sp bad post r w Hf Hl Hc Hb.
  - cbn [map app] in Hl. apply lines_of_cons in Hl as (sp' & E & _).
    pose proof (strtok_r_shorter _ _ _ _ E) as Hs.
    destruct fuel as [|fuel]; [lia|].
    cbn [header_loop]. rewrite E, (parse_header_line_no_colon bad r Hb).
    reflexivity.
  - cbn [map app] in Hl. apply lines_of_cons in Hl as (sp' & E & Hl').
    pose proof (strtok_r_shorter _ _ _ _ E) as Hs.
    inversion Hc as [|? ? Hp Hps]; subst.
    destruct fuel as [|fuel]; [lia|].
    cbn [header_loop]. rewrite E, (parse_header_line_entry p r Hp).
    cbn iota. rewrite (IH fuel sp' bad post _ w) by (auto; lia). reflexivity.
Qed.

(** The bound [new_request] gives its loop is never reached. *)
Lemma header_loop_fuel (fuel : nat) :
  forall saveptr r w,
    (String.length saveptr <= fuel)%nat ->
    header_loop fuel saveptr r w <> Fault FuelExhausted.
Proof.
  induction fuel as [|fuel IH]; intros sp r w Hf.
  - simpl. destruct (strtok_r sp LF) as [[l s']|] eqn:E; [|discriminate].
    apply strtok_r_shorter in E. lia.
  - cbn [header_loop].
    destruct (strtok_r sp LF) as [[l s']|] eqn:E; [|discriminate].
    apply strtok_r_shorter in E.
    destruct (parse_header_line l r) as [[] r'].
    + apply IH. lia.
    + discriminate.
Qed.

Lemma new_request_fuel (headers : string) (w : World) :
  new_request conn headers w <> Fault FuelExhausted.
Proof.
  unfold new_request.
  destruct (strtok_r headers LF) as [[l sp]|]; [|discriminate].
  destruct (parse_status_line l _) as [[] r'].
  - apply header_loop_fuel. lia.
  - discriminate.
Qed.

End RequestParser.

(** The request [new_request] starts from. *)
Lemma new_request_no_line (conn : SOCKET) (headers : string) (w : World) :
  lines_of headers = [] ->
  new_request conn headers w = Done (mkRequest conn 0 [] None None None, w).
Proof.
  intros H. unfold new_request.
  destruct (strtok_r headers LF) as [[l sp]|] eqn:E; [|reflexivity].
  now rewrite (lines_of_step _ _ _ E) in H.
Qed.

(** A first line without any space: the request comes back untouched. *)
Lemma new_request_no_space (conn : SOCKET) (headers line : string)
    (rest : list string) (w : World) :
  lines_of headers = line :: rest ->
  count_char " " line = O ->
  new_request conn headers w = Done (mkRequest conn 0 [] None None None, w).
Proof.
  intros Hl Hs. apply lines_of_cons in Hl as (sp & E & _).
  unfold new_request. rewrite E.
  now rewrite (parse_status_line_no_space line _ Hs).
Qed.

(** C8.  When the request line is accepted and every header line has a
    colon, the stored list holds the entries of the lines in reverse wire
    order (the line parsed last comes first) and the count is the number of
    lines. *)
Theorem new_request_headers_reversed
    (conn : SOCKET) (headers m p v : string) (lines : list string)
    (w : World) :
  lines_of headers = request_line m p v :: lines ->
  count_char " " m = O -> count_char " " p = O ->
  Forall has_colon lines ->
  new_request conn headers w =
  Done (mkRequest conn (Z.of_nat (List.length lines))
                  (rev (map header_of_line lines))
                  (Some m) (Some p) (Some v), w).
Proof.
  intros Hl Hm Hp Hc. apply lines_of_cons in Hl as (sp & E & Hl).
  destruct (split_colon_lines lines Hc) as [Hs Hf].
  rewrite <- Hs in Hl.
  unfold new_request. rewrite E.
  rewrite (parse_status_line_two_spaces m p v _ Hm Hp).
  rewrite (header_loop_well_formed _ _ sp _ w (le_n _) Hl Hf).
  rewrite push_all_fields. cbn.
  now rewrite !length_map, app_nil_r, map_map.
Qed.

Lemma new_request_headers_reversed_witness :
  new_request 3
    ("GET / HTTP/1.1" ++ String LF ("Host: x" ++ String LF "Accept:*/*"))
    (mkWorld [] [] (fun _ => zero) 0 []) =
  Done (mkRequest 3 2 [mkHeader "Accept" "*/*"; mkHeader "Host" "x"]
                  (Some "GET") (Some "/") (Some "HTTP/1.1"),
        mkWorld [] [] (fun _ => zero) 0 []).
Proof.
  apply (new_request_headers_reversed 3 _ "GET" "/" "HTTP/1.1"
           ["Host: x"; "Accept:*/*"]).
  - reflexivity.
  - reflexivity.
  - reflexivity.
  - repeat constructor; discriminate.
Defined.



(** C10.  When the first line holds exactly one space, the request comes
    back with the method set to the text before that space, path and
    version NULL and no header; the handler's test [method != NULL]
    accepts it. *)
Theorem new_request_one_space
    (conn : SOCKET) (headers line : string) (rest : list string) (w : World) :
  lines_of headers = line :: rest ->
  count_char " " line = 1%nat ->
  exists m t,
    line = m ++ String " " t /\ count_char " " m = O /\
    new_request conn headers w =
      Done (mkRequest conn 0 [] (Some m) None None, w) /\
    method_is_set (mkRequest conn 0 [] (Some m) None None) = true.
Proof.
  intros Hl H1. apply lines_of_cons in Hl as (sp & E & _).
  destruct (count_char_one " " line H1) as (m & t & -> & Hm & Ht).
  exists m, t. repeat split; auto.
  unfold new_request. rewrite E.
  now rewrite (parse_status_line_one_space m t _ Hm Ht).
Qed.

Lemma new_request_one_space_witness :
  exists m t,
    "GET /index.html" = m ++ String " " t /\ count_char " " m = O /\
    new_request 3 ("GET /index.html" ++ String LF "Host: x")
                (mkWorld [] [] (fun _ => zero) 0 []) =
      Done (mkRequest 3 0 [] (Some m) None None,
            mkWorld [] [] (fun _ => zero) 0 []) /\
    method_is_set (mkRequest 3 0 [] (Some m) None None) = true.
Proof.
  apply (new_request_one_space 3 _ "GET /index.html" ["Host: x"]).
  - reflexivity.
  - reflexivity.
Defined.

(** C1, at the header text "GET /index.html" LF "Host: x".  The first line
    has one space: the request line is rejected and no header is stored,
    yet the method is left set and the request passes the handler's test.
    The handler then goes on with a NULL path and version. *)
Theorem new_request_one_space_not_invalid (w : World) :
  new_request 3 ("GET /index.html" ++ String LF "Host: x") w =
    Done (mkRequest 3 0 [] (Some "GET") None None, w) /\
  method_is_set (mkRequest 3 0 [] (Some "GET") None None) = true /\
  handle_request 3 (mkConfiguration 80 8192 8192 true)
    (mkWorld [Data (list_ascii_of_string
                      ("GET /index.html" ++ String LF "Host: x" ++ separator))]
             [] (fun _ => zero) 0 []) = Fault NullArgument.
Proof. repeat split. Qed.

(** When the request line itself is rejected, no header line is read:
    at the header text "GET /index.html" LF "bogus" the line without a
    colon is never looked at, and the method is the one that
    [parse_status_line] left behind on its one-space line. *)
Theorem new_request_bad_header_after_one_space (w : World) :
  lines_of ("GET /index.html" ++ String LF "bogus")
    = ["GET /index.html"; "bogus"] /\
  count_char ":" "bogus" = O /\
  new_request 3 ("GET /index.html" ++ String LF "bogus") w =
    Done (mkRequest 3 0 [] (Some "GET") None None, w) /\
  method_is_set (mkRequest 3 0 [] (Some "GET") None None) = true.
Proof. repeat split. Qed.

(* ================================================================== *)
(** * Status table and response encoder *)
(* ================================================================== *)

Section StatusTable.

Lemma store_length {A} (a : list A) (i : nat) (x : A) :
  List.length (store a i x) = List.length a.
Proof.
  revert i; induction a as [|y a IH]; intros [|i]; simpl; auto.
Qed.

Lemma nth_error_store_same {A} (a : list A) (i : nat) (x : A) :
  (i < List.length a)%nat -> nth_error (store a i x) i = Some x.
Proof.
  revert i; induction a as [|y a IH]; intros [|i] H; simpl in *;
    try lia; [reflexivity | apply IH; lia].
Qed.

Lemma nth_error_store_other {A} (a : list A) (i j : nat) (x : A) :
  i <> j -> nth_error (store a i x) j = nth_error a j.
Proof.
  revert i j; induction a as [|y a IH]; intros [|i] [|j] H; simpl;
    try reflexivity; try congruence.
  apply IH. congruence.
Qed.

(** Entry by entry, the table is zero except at 200, 201 and 204. *)
Lemma statuses_entries (i : nat) (st : HttpStatus) :
  nth_error statuses i = Some st ->
  st = mkHttpStatus 0 None \/
  (exists phrase, st = mkHttpStatus (Z.of_nat i) (Some phrase) /\
                  known (Z.of_nat i) phrase).
Proof.
  unfold statuses, init_status_tbl.
  change (Z.to_nat (200 mod STATUS_TABLE_SIZE)) with 200%nat.
  change (Z.to_nat (201 mod STATUS_TABLE_SIZE)) with 201%nat.
  change (Z.to_nat (204 mod STATUS_TABLE_SIZE)) with 204%nat.
  change (Z.to_nat STATUS_TABLE_SIZE) with 512%nat.
  set (z := mkHttpStatus 0 None).
  destruct (Nat.eq_dec i 204) as [->|N4].
  { rewrite nth_error_store_same
      by (rewrite !store_length, repeat_length; lia).
    intros [= <-]. right. exists "No Content". split; [reflexivity|].
    right; right; now split. }
  rewrite nth_error_store_other by congruence.
  destruct (Nat.eq_dec i 201) as [->|N1].
  { rewrite nth_error_store_same
      by (rewrite !store_length, repeat_length; lia).
    intros [= <-]. right. exists "Created". split; [reflexivity|].
    right; left; now split. }
  rewrite nth_error_store_other by congruence.
  destruct (Nat.eq_dec i 200) as [->|N0].
  { rewrite nth_error_store_same by (rewrite repeat_length; lia).
    intros [= <-]. right. exists "OK". split; [reflexivity|].
    left; now split. }
  rewrite nth_error_store_other by congruence.
  intros H. left.
  assert (Hi : (i < 512)%nat).
  { rewrite <- (repeat_length z 512). apply nth_error_Some.
    rewrite H. discriminate. }
  rewrite (nth_error_repeat z Hi) in H. now injection H.
Qed.

Lemma statuses_length : List.length statuses = 512%nat.
Proof.
  unfold statuses, init_status_tbl.
  now rewrite !store_length, repeat_length.
Qed.

(** X9.  A phrase comes back exactly for the three codes of the table. *)
Lemma reason_known (c : Z) (phrase : string) :
  reason c = Done (Some phrase) <-> known c phrase.
Proof.
  split.
  - unfold reason. destruct (Z.rem c STATUS_TABLE_SIZE <? 0) eqn:Hneg;
      [discriminate|].
    apply Z.ltb_ge in Hneg.
    destruct (nth_error statuses _) as [st|] eqn:E; [|discriminate].
    destruct (status_code st =? c) eqn:Hc; [|discriminate].
    apply Z.eqb_eq in Hc. intros [= Hp].
    apply statuses_entries in E as [-> | (ph & -> & K)].
    + discriminate.
    + simpl in *. congruence.
  - intros [[-> ->] | [[-> ->] | [-> ->]]]; reflexivity.
Qed.

(** A non-negative code outside the table is reported as not found. *)
Lemma reason_absent (c : Z) :
  0 <= c -> c <> 200 -> c <> 201 -> c <> 204 -> reason c = Done None.
Proof.
  intros H0 N0 N1 N4. unfold reason.
  pose proof (Z.rem_bound_pos c STATUS_TABLE_SIZE H0 eq_refl) as [Hlo Hhi].
  destruct (Z.rem c STATUS_TABLE_SIZE <? 0) eqn:Hneg;
    [apply Z.ltb_lt in Hneg; lia|].
  destruct (nth_error statuses _) as [st|] eqn:E.
  - destruct (status_code st =? c) eqn:Hc; [|reflexivity].
    apply Z.eqb_eq in Hc.
    apply statuses_entries in E as [-> | (ph & -> & K)]; [reflexivity|].
    simpl in Hc. rewrite Hc in K.
    destruct K as [[? _] | [[? _] | [? _]]]; contradiction.
  - exfalso. apply nth_error_None in E. rewrite statuses_length in E.
    unfold STATUS_TABLE_SIZE in *. lia.
Qed.

End StatusTable.

Section Encoder.

(** What [%d] and [%zu] print reads back as the number printed. *)
Lemma decimal_read_back (z : Z) : read_decimal (decimal z) = Some z.
Proof.
  unfold read_decimal, decimal. rewrite NilZero.isi.
  - simpl. now rewrite DecimalZ.of_to.
  - destruct z; simpl; try discriminate.
    intros [= H]. now apply Unsigned.to_uint_nonnil in H.
  - destruct z; simpl; try discriminate.
    intros [= H]. now apply Unsigned.to_uint_nonnil in H.
Qed.

Lemma add_all_fields (hs : list Header) (r : Response) :
  fold_left (fun r h => add_header r (name h) (value h)) hs r =
  mkResponse (connection r) (header_count r + Z.of_nat (List.length hs))
             (headers r ++ hs) (code r) (http_version r) (body r)
             (encoded_response r).
Proof.
  revert r; induction hs as [|h hs IH]; intros r.
  - simpl. rewrite Z.add_0_r, app_nil_r. now destruct r.
  - cbn [fold_left]. rewrite IH. unfold add_header; cbn [connection
      header_count headers code http_version body encoded_response].
    destruct h as [n v]; cbn [name value]. f_equal.
    + cbn [List.length]. lia.
    + now rewrite <- app_assoc.
Qed.

Lemma response_with_fields (conn : SOCKET) (c : Z) (version : option string)
    (b : string) (hs : list Header) :
  response_with conn c version b hs =
  mkResponse conn (Z.of_nat (List.length hs)) hs c version b None.
Proof. unfold response_with. now rewrite add_all_fields. Qed.

Lemma construct_status_line_known (r : Response) (phrase : string)
    (w : World) :
  reason (code r) = Done (Some phrase) ->
  construct_status_line r w = Done (Some (status_line_of (code r) phrase), w).
Proof.
  intros H. unfold construct_status_line, bind, lift. now rewrite H.
Qed.

Lemma construct_status_line_unknown (r : Response) (w : World) :
  reason (code r) = Done None ->
  construct_status_line r w =
  Done (None, with_event w (Printf ("Unrecognized reason for code: "
                                      ++ decimal (code r)))).
Proof.
  intros H. unfold construct_status_line, bind, lift. now rewrite H.
Qed.

(** The response and the text [encode] produces when the header lines fit
    the block allocated for them. *)
Lemma encode_fits (r : Response) (phrase : string) (w : World) :
  reason (code r) = Done (Some phrase) ->
  let all := (headers r ++ synthesized (body r))%list in
  Z.of_nat (String.length (header_lines all))
    < (header_count r + 2) * 160 <= INT_MAX ->
  encode r w =
  Done (mkResponse (connection r) (header_count r + 2) all (code r)
                   (http_version r) (body r)
                   (Some (status_line_of (code r) phrase
                            ++ header_lines all ++ crlf "" ++ body r)), w).
Proof.
  intros Hk all Hfit. unfold encode, bind.
  rewrite (construct_status_line_known r phrase w Hk).
  unfold lift, construct_headers, add_header;
    cbn [connection header_count headers code http_version body
         encoded_response].
  rewrite <- app_assoc. cbn [app].
  fold (content_length_header (body r)). fold connection_close.
  fold (synthesized (body r)). fold all.
  replace (header_count r + 1 + 1) with (header_count r + 2) by lia.
  replace ((header_count r + 2) * 2 * 80) with ((header_count r + 2) * 160)
    by lia.
  destruct Hfit as [Hlt Hle].
  apply Z.leb_le in Hle. rewrite Hle.
  assert (Hb : (Z.of_nat (String.length (header_lines all)) + 1
                  <=? (header_count r + 2) * 160) = true)
    by (apply Z.leb_le; lia).
  rewrite Hb. reflexivity.
Qed.

Lemma encode_unknown (r : Response) (w : World) :
  reason (code r) = Done None ->
  encode r w =
  Done (r, with_event w (Printf ("Unrecognized reason for code: "
                                   ++ decimal (code r)))).
Proof.
  intros H. unfold encode, bind.
  now rewrite (construct_status_line_unknown r w H).
Qed.

(** An unknown code found by the lookup: nothing is encoded and
    [send_response] only prints two diagnostics. *)
Lemma send_response_unknown (cfg : Configuration) (r : Response) (w : World) :
  reason (code r) = Done None ->
  encoded_response r = None ->
  send_response cfg r w =
  Done (tt, with_event
              (with_event w (Printf ("Unrecognized reason for code: "
                                       ++ decimal (code r))))
              (Printf "No encoded response to send")).
Proof.
  intros H He. unfold send_response, bind.
  rewrite (encode_unknown r w H), He. reflexivity.
Qed.

(** The size check, for a limit that is a non-negative [int]. *)
Lemma send_response_too_large (cfg : Configuration) (r r' : Response)
    (w w1 : World) (encoded : string) :
  0 <= max_ressize cfg <= INT_MAX ->
  encode r w = Done (r', w1) ->
  encoded_response r' = Some encoded ->
  max_ressize cfg <= Z.of_nat (String.length encoded) ->
  send_response cfg r w =
  Done (tt, with_event w1 (Printf
    ("Attempted to send response that exceeds configuration->max_ressize. Response size: "
       ++ decimal (Z.of_nat (String.length encoded))))).
Proof.
  intros Hm He Henc Hlen. unfold send_response, bind.
  rewrite He, Henc.
  assert (Hs : to_size_t (max_ressize cfg) = max_ressize cfg).
  { unfold to_size_t. apply Z.mod_small. unfold INT_MAX in Hm. lia. }
  rewrite Hs.
  assert (Hge : (Z.of_nat (String.length encoded) >=? max_ressize cfg) = true)
    by (apply Z.geb_le; lia).
  rewrite Hge. reflexivity.
Qed.

(** C6.  For every status code (a number from 0 on) that is absent from
    the table, encoding produces nothing: [encode] prints its diagnostic
    and leaves the response as it was, without encoded output; and
    [send_response] sends nothing, the trace only grows by the two
    diagnostics. *)
Lemma unknown_code_not_sent (cfg : Configuration) (conn : SOCKET) (c : Z)
    (version : option string) (b : string) (hs : list Header) (w : World) :
  0 <= c -> c <> 200 -> c <> 201 -> c <> 204 ->
  let r := response_with conn c version b hs in
  encode r w =
    Done (r, with_event w (Printf ("Unrecognized reason for code: "
                                     ++ decimal c))) /\
  encoded_response r = None /\
  send_response cfg r w =
    Done (tt, with_event
                (with_event w (Printf ("Unrecognized reason for code: "
                                         ++ decimal c)))
                (Printf "No encoded response to send")).
Proof.
  intros H0 N0 N1 N4 r.
  assert (Hr : reason (code r) = Done None).
  { unfold r. rewrite response_with_fields. cbn [code].
    now apply reason_absent. }
  assert (Hc : code r = c)
    by (unfold r; now rewrite response_with_fields).
  assert (He : encoded_response r = None)
    by (unfold r; now rewrite response_with_fields).
  repeat split.
  - rewrite <- Hc. now apply encode_unknown.
  - exact He.
  - rewrite <- Hc. now apply send_response_unknown.
Qed.

End Encoder.

(** C2, as the code has it.  For a code of the table the status line is
    ["HTTP/1.1 <code> <reason>"] and CR LF, whatever the response's own
    version field holds; the encoded output starts with that line. *)
Theorem status_line_fixed_version (r : Response) (phrase : string) (w : World) :
  reason (code r) = Done (Some phrase) ->
  construct_status_line r w =
    Done (Some (crlf ("HTTP/1.1 " ++ decimal (code r) ++ " " ++ phrase)), w) /\
  (forall r' w', encode r w = Done (r', w') ->
     exists rest,
       encoded_response r' =
       Some (crlf ("HTTP/1.1 " ++ decimal (code r) ++ " " ++ phrase) ++ rest)).
Proof.
  intros Hk. split; [exact (construct_status_line_known r phrase w Hk)|].
  intros r' w'. unfold encode, bind.
  rewrite (construct_status_line_known r phrase w Hk).
  destruct (lift (construct_headers _) w) as [[hs w1]|f]; [|discriminate].
  intros [= <- _]. eexists. reflexivity.
Qed.

Lemma status_line_fixed_version_witness :
  construct_status_line (fresh_response 3 204 (Some "HTTP/1.0") "")
                        (mkWorld [] [] (fun _ => zero) 0 []) =
  Done (Some (crlf "HTTP/1.1 204 No Content"),
        mkWorld [] [] (fun _ => zero) 0 []).
Proof.
  apply (status_line_fixed_version
           (fresh_response 3 204 (Some "HTTP/1.0") "") "No Content").
  reflexivity.
Defined.

(** C2 as stated fails: a response whose version field is HTTP/1.0 gets
    the status line "HTTP/1.1 200 OK", not "HTTP/1.0 200 OK". *)
Lemma status_line_not_from_version :
  http_version (fresh_response 3 200 (Some "HTTP/1.0") "") = Some "HTTP/1.0" /\
  reason 200 = Done (Some "OK") /\
  construct_status_line (fresh_response 3 200 (Some "HTTP/1.0") "")
                        (mkWorld [] [] (fun _ => zero) 0 []) =
    Done (Some (crlf "HTTP/1.1 200 OK"), mkWorld [] [] (fun _ => zero) 0 []) /\
  String.eqb (crlf "HTTP/1.1 200 OK")
             (crlf ("HTTP/1.0" ++ " " ++ decimal 200 ++ " " ++ "OK")) = false.
Proof. repeat split. Qed.

(** C3, within the bound of the header block.  A response with a code of
    the table and N headers added by the caller, whose header lines
    together with the two synthesized ones fit the block of 160 * (N + 2)
    bytes the code allocates (terminator included), is encoded with exactly
    N + 2 header lines: the caller's in list order, then Content-Length with
    the decimal length of the body, then Connection: close.  The output is
    the status line, these lines, one empty line and the body, with nothing
    after it. *)
Theorem encode_known_code (conn : SOCKET) (c : Z) (version : option string)
    (b : string) (hs : list Header) (phrase : string) (w : World) :
  reason c = Done (Some phrase) ->
  Z.of_nat (String.length (header_lines (hs ++ synthesized b)))
    < (Z.of_nat (List.length hs) + 2) * 160 <= INT_MAX ->
  encode (response_with conn c version b hs) w =
    Done (mkResponse conn (Z.of_nat (List.length hs) + 2)
            (hs ++ [mkHeader "Content-Length"
                      (decimal (Z.of_nat (String.length b)));
                    mkHeader "Connection" "close"])
            c version b
            (Some (crlf ("HTTP/1.1 " ++ decimal c ++ " " ++ phrase)
                     ++ header_lines (hs ++ synthesized b)
                     ++ crlf "" ++ b)), w) /\
  List.length (hs ++ synthesized b) = (List.length hs + 2)%nat /\
  read_decimal (value (content_length_header b))
    = Some (Z.of_nat (String.length b)).
Proof.
  intros Hk Hfit. split; [|split].
  - rewrite response_with_fields.
    exact (encode_fits (mkResponse conn _ hs c version b None) phrase w
                       Hk Hfit).
  - rewrite length_app. reflexivity.
  - apply decimal_read_back.
Qed.

Lemma encode_known_code_witness :
  encode (response_with 3 200 (Some "HTTP/1.1") "hello"
            [mkHeader "Content-Type" "text/plain"])
         (mkWorld [] [] (fun _ => zero) 0 []) =
    Done (mkResponse 3 3
            [mkHeader "Content-Type" "text/plain";
             mkHeader "Content-Length" "5";
             mkHeader "Connection" "close"]
            200 (Some "HTTP/1.1") "hello"
            (Some (crlf "HTTP/1.1 200 OK"
                     ++ crlf "Content-Type: text/plain"
                     ++ crlf "Content-Length: 5"
                     ++ crlf "Connection: close"
                     ++ crlf "" ++ "hello")),
          mkWorld [] [] (fun _ => zero) 0 []) /\
  List.length ([mkHeader "Content-Type" "text/plain"] ++ synthesized "hello")
  = 3%nat /\
  read_decimal (value (content_length_header "hello")) = Some 5.
Proof.
  apply (encode_known_code 3 200 (Some "HTTP/1.1") "hello"
           [mkHeader "Content-Type" "text/plain"] "OK").
  - reflexivity.
  - vm_compute. split; [reflexivity | discriminate].
Defined.

(** C3 as stated fails at a response with status 200 and one caller-set
    header of 500 characters: the three header lines take 547 characters
    and a terminator, the block allocated for them has 3 * 160 = 480 bytes,
    and the [strcat] calls run past its end. *)
Lemma encode_long_header_overflow :
  reason 200 = Done (Some "OK") /\
  String.length
    (header_lines ([mkHeader "X-Pad" (filler 500)] ++ synthesized "")) = 547%nat /\
  header_count (add_header (add_header
     (response_with 3 200 (Some "HTTP/1.1") "" [mkHeader "X-Pad" (filler 500)])
     "Content-Length" "0") "Connection" "close") * 2 * 80 = 480 /\
  encode (response_with 3 200 (Some "HTTP/1.1") ""
            [mkHeader "X-Pad" (filler 500)])
         (mkWorld [] [] (fun _ => zero) 0 []) = Fault OutOfBounds.
Proof. repeat split. Qed.

(* ================================================================== *)
(** * Frame reader: termination, silence, and the specification *)
(* ================================================================== *)

Section FrameReader.

Variable sock : SOCKET.
Variable cfg : Configuration.

(** What [recv] hands back: nothing (closed or failed), or between one and
    [cap] bytes.  It never touches the trace. *)
Lemma recv_result (cap : Z) (w : World) :
  exists n data w',
    recv sock cap w = Done ((n, data), w') /\
    trace w' = trace w /\
    (n <= 0 \/ (0 < n <= cap /\ n = Z.of_nat (List.length data))).
Proof.
  unfold recv. destruct (incoming w) as [|[bytes|] rest].
  - exists 0, [], w. repeat split; auto. left; lia.
  - eexists _, _, _. split; [reflexivity|]. split; [reflexivity|].
    destruct (Z.le_gt_cases cap 0) as [Hc|Hc].
    + left. replace (Z.to_nat cap) with O by lia.
      rewrite Nat.min_0_r. simpl. lia.
    + destruct bytes as [|b bytes].
      * left. simpl. lia.
      * right. rewrite length_firstn. cbn [List.length]. split; lia.
  - exists (-1), [], (with_incoming w rest). repeat split. left; lia.
Qed.

Lemma decode_finish_trace (buffer : list ascii) (read_ptr : Z) (w w' : World)
    (x : option string * option string) :
  decode_finish buffer read_ptr w = Done (x, w') -> trace w' = trace w.
Proof.
  unfold decode_finish, bind, lift, ret, fail.
  destruct (_ && _); [|discriminate].
  destruct (0 <? read_ptr).
  - destruct (cstring_at _ 0); [|discriminate]. now intros [= _ <-].
  - now intros [= _ <-].
Qed.

(** The frame reader prints nothing and sends nothing. *)
Lemma decode_loop_trace (fuel : nat) :
  forall buffer read_ptr w w' x,
    decode_loop fuel sock cfg buffer read_ptr w = Done (x, w') ->
    trace w' = trace w.
Proof.
  induction fuel as [|fuel IH]; intros buffer rp w w' x; cbn [decode_loop].
  - destruct (rp <? max_reqsize cfg - 1); [discriminate|].
    apply decode_finish_trace.
  - destruct (rp <? max_reqsize cfg - 1); [|apply decode_finish_trace].
    unfold bind at 1.
    destruct (recv_result (max_reqsize cfg - rp) w)
      as (n & data & w1 & -> & Ht & _).
    destruct (n <=? 0).
    + intros H. apply decode_finish_trace in H. congruence.
    + unfold bind, lift.
      destruct (cstring_at _ 0) as [text|]; [|discriminate].
      destruct (strstr text separator).
      * unfold ret. intros [= _ <-]. exact Ht.
      * intros H. apply IH in H. congruence.
Qed.

Lemma http_decode_trace (w w' : World) (x : option string * option string) :
  http_decode sock cfg w = Done (x, w') -> trace w' = trace w.
Proof.
  unfold http_decode. destruct (max_reqsize cfg <=? 0); [discriminate|].
  apply decode_loop_trace.
Qed.

Lemma decode_finish_fuel (buffer : list ascii) (read_ptr : Z) (w : World) :
  decode_finish buffer read_ptr w <> Fault FuelExhausted.
Proof.
  unfold decode_finish, bind, lift, ret, fail.
  destruct (_ && _); [|discriminate].
  destruct (0 <? read_ptr); [|discriminate].
  unfold cstring_at.
  assert (H : forall mem, cstring_from mem <> Fault FuelExhausted).
  { induction mem as [|c mem IHm]; simpl; [discriminate|].
    destruct (Ascii.eqb c zero); [discriminate|].
    destruct (cstring_from mem) as [s|f]; [discriminate|].
    congruence. }
  destruct (cstring_from _) as [s|f] eqn:E; [discriminate|].
  intros [= ->]. now apply (H _ E).
Qed.

Lemma cstring_at_fuel (mem : list ascii) (off : nat) :
  cstring_at mem off <> Fault FuelExhausted.
Proof.
  unfold cstring_at. generalize (skipn off mem) as m.
  induction m as [|c m IHm]; simpl; [discriminate|].
  destruct (Ascii.eqb c zero); [discriminate|].
  destruct (cstring_from m) as [s|f]; [discriminate|]. congruence.
Qed.

(** The bound [http_decode] gives its loop is never reached: the room left
    in the buffer shrinks with every iteration that continues. *)
Lemma decode_loop_fuel (fuel : nat) :
  forall buffer read_ptr w,
    max_reqsize cfg - read_ptr <= Z.of_nat fuel ->
    decode_loop fuel sock cfg buffer read_ptr w <> Fault FuelExhausted.
Proof.
  induction fuel as [|fuel IH]; intros buffer rp w Hf; cbn [decode_loop].
  - destruct (rp <? max_reqsize cfg - 1) eqn:E;
      [apply Z.ltb_lt in E; lia | apply decode_finish_fuel].
  - destruct (rp <? max_reqsize cfg - 1); [|apply decode_finish_fuel].
    unfold bind at 1.
    destruct (recv_result (max_reqsize cfg - rp) w)
      as (n & data & w1 & -> & _ & Hn).
    destruct (n <=? 0) eqn:En; [apply decode_finish_fuel|].
    apply Z.leb_gt in En.
    unfold bind, lift.
    destruct (cstring_at _ 0) as [text|f] eqn:Ec.
    + destruct (strstr text separator); [discriminate|].
      apply IH. lia.
    + intros [= ->]. now apply (cstring_at_fuel _ _ Ec).
Qed.

Lemma http_decode_fuel (w : World) :
  http_decode sock cfg w <> Fault FuelExhausted.
Proof.
  unfold http_decode. destruct (max_reqsize cfg <=? 0) eqn:E; [discriminate|].
  apply decode_loop_fuel. apply Z.leb_gt in E. lia.
Qed.

End FrameReader.

Section FrameRefinement.

Variable sock : SOCKET.
Variable cfg : Configuration.

Lemma write_at_app (acc tail data : list ascii) :
  write_at (acc ++ tail) (List.length acc) data = (acc ++ write_at tail O data)%list.
Proof. induction acc as [|a acc IH]; simpl; [reflexivity | now rewrite IH]. Qed.

Lemma write_at_front (data tail : list ascii) :
  (List.length data <= List.length tail)%nat ->
  write_at tail O data = (data ++ skipn (List.length data) tail)%list.
Proof.
  revert tail; induction data as [|d data IH]; intros [|t tail] H;
    simpl in *; try reflexivity; try lia.
  rewrite IH by lia. reflexivity.
Qed.

Lemma skipn_repeat {A} (x : A) (n k : nat) :
  skipn n (repeat x k) = repeat x (k - n).
Proof.
  revert k; induction n as [|n IH]; intros [|k]; simpl; auto.
Qed.

Lemma store_app (acc tail : list ascii) (x : ascii) :
  store (acc ++ tail) (List.length acc) x = (acc ++ store tail O x)%list.
Proof. induction acc as [|a acc IH]; simpl; [reflexivity | now rewrite IH]. Qed.

Lemma cstring_from_terminated (acc tail : list ascii) :
  nul_free acc ->
  cstring_from (acc ++ zero :: tail) = Done (string_of_list_ascii acc).
Proof.
  induction 1 as [|c acc Hc _ IH]; simpl; [reflexivity|].
  destruct (Ascii.eqb c zero) eqn:E; [apply Ascii.eqb_eq in E; contradiction|].
  now rewrite IH.
Qed.

Lemma stack_zeroed (w : World) (n : nat) :
  zeroed w n -> map (stack_bytes w) (seq 0 n) = repeat zero n.
Proof.
  intros Hz. apply nth_ext with (d := zero) (d' := zero).
  - now rewrite length_map, length_seq, repeat_length.
  - intros i Hi. rewrite length_map, length_seq in Hi.
    rewrite nth_repeat.
    rewrite (nth_indep _ zero (stack_bytes w O))
      by now rewrite length_map, length_seq.
    rewrite map_nth, seq_nth by exact Hi. apply Hz. exact Hi.
Qed.

(** The buffer that holds the accumulated bytes followed by zeros. *)
Lemma finish_frame (size : nat) (acc : list ascii) (w : World) :
  nul_free acc -> (List.length acc < size)%nat ->
  decode_finish (acc ++ repeat zero (size - List.length acc))
                (Z.of_nat (List.length acc)) w =
  Done ((match acc with
         | [] => None
         | _ :: _ => Some (string_of_list_ascii acc)
         end, None), w).
Proof.
  intros Hn Hl. unfold decode_finish.
  rewrite length_app, repeat_length.
  assert (Hin : (0 <=? Z.of_nat (List.length acc)) &&
                (Z.of_nat (List.length acc)
                   <? Z.of_nat (List.length acc + (size - List.length acc)))
                = true).
  { apply andb_true_iff. split; [apply Z.leb_le | apply Z.ltb_lt]; lia. }
  rewrite Hin, Nat2Z.id, store_app.
  destruct (size - List.length acc)%nat as [|k] eqn:Hk; [lia|].
  cbn [repeat store].
  destruct acc as [|a acc]; [reflexivity|].
  assert (Hp : (0 <? Z.of_nat (List.length (a :: acc))) = true)
    by (apply Z.ltb_lt; cbn [List.length]; lia).
  rewrite Hp. unfold bind, lift, cstring_at. cbn [skipn].
  now rewrite (cstring_from_terminated (a :: acc) _ Hn).
Qed.

(** With a zeroed buffer, NUL-free data and fewer bytes than the capacity
    in all, the loop computes [frame]. *)
Lemma decode_loop_frame (size : nat) :
  Z.of_nat size = max_reqsize cfg ->
  forall arrivals fuel acc w,
    incoming w = arrivals ->
    nul_free acc ->
    Forall (fun a => nul_free (arrival_bytes a)) arrivals ->
    (List.length acc + total_bytes arrivals < size)%nat ->
    (size - List.length acc <= fuel)%nat ->
    exists w',
      decode_loop fuel sock cfg
        (acc ++ repeat zero (size - List.length acc))
        (Z.of_nat (List.length acc)) w =
      Done (frame size acc arrivals, w').
Proof.
  intros Hsize.
  induction arrivals as [|a rest IH]; intros fuel acc w Hin Hn Hd Ht Hf.
  - (* the connection yields nothing more *)
    cbn [total_bytes fold_right] in Ht.
    exists w. unfold frame.
    destruct fuel as [|fuel]; cbn [decode_loop];
      destruct (Z.of_nat (List.length acc) <? max_reqsize cfg - 1) eqn:Hc;
      try (apply Z.ltb_lt in Hc; lia).
    + apply Z.ltb_ge in Hc.
      replace (size - 1 <=? List.length acc)%nat with true
        by (symmetry; apply Nat.leb_le; lia).
      apply finish_frame; auto; lia.
    + apply Z.ltb_lt in Hc.
      replace (size - 1 <=? List.length acc)%nat with false
        by (symmetry; apply Nat.leb_gt; lia).
      unfold bind at 1, recv. rewrite Hin. cbn.
      apply finish_frame; auto; lia.
    + apply Z.ltb_ge in Hc.
      replace (size - 1 <=? List.length acc)%nat with true
        by (symmetry; apply Nat.leb_le; lia).
      apply finish_frame; auto; lia.
  - cbn [total_bytes fold_right] in Ht. fold (total_bytes rest) in Ht.
    inversion Hd as [|? ? Ha Hrest]; subst.
    cbn [frame].
    destruct (size - 1 <=? List.length acc)%nat eqn:Hfull.
    + (* at most one byte of room *)
      apply Nat.leb_le in Hfull. exists w.
      assert (Hc : (Z.of_nat (List.length acc) <? max_reqsize cfg - 1) = false)
        by (apply Z.ltb_ge; lia).
      destruct fuel; cbn [decode_loop]; rewrite Hc;
        apply finish_frame; auto; lia.
    + apply Nat.leb_gt in Hfull.
      assert (Hc : (Z.of_nat (List.length acc) <? max_reqsize cfg - 1) = true)
        by (apply Z.ltb_lt; lia).
      destruct fuel as [|fuel]; [lia|].
      cbn [decode_loop]. rewrite Hc.
      unfold bind at 1, recv. rewrite Hin.
      destruct a as [[|b bytes]|].
      * (* empty arrival: the peer closed *)
        cbn. eexists. apply finish_frame; auto; lia.
      * (* some bytes *)
        cbn [arrival_bytes] in Ha, Ht.
        set (data := b :: bytes) in *.
        assert (Hmin : Nat.min (List.length data)
                         (Z.to_nat (max_reqsize cfg
                                      - Z.of_nat (List.length acc)))
                       = List.length data) by lia.
        rewrite Hmin, firstn_all, skipn_all.
        assert (Hpos : (Z.of_nat (List.length data) <=? 0) = false)
          by (apply Z.leb_gt; subst data; cbn [List.length]; lia).
        rewrite Hpos.
        rewrite Nat2Z.id, write_at_app, write_at_front
          by (rewrite repeat_length; lia).
        rewrite skipn_repeat, app_assoc.
        unfold bind at 1, lift, cstring_at. cbn [skipn].
        assert (Hn' : nul_free (acc ++ data)) by (apply Forall_app; now split).
        destruct (size - List.length acc - List.length data)%nat
          as [|k] eqn:Hk; [lia|].
        cbn [repeat].
        rewrite (cstring_from_terminated (acc ++ data) _ Hn').
        destruct (strstr (string_of_list_ascii (acc ++ data)) separator)
          as [k0|] eqn:Hs.
        -- eexists. reflexivity.
        -- replace (Z.of_nat (List.length acc) + Z.of_nat (List.length data))
             with (Z.of_nat (List.length (acc ++ data)))
             by (rewrite length_app; lia).
           replace (zero :: repeat zero k)
             with (repeat zero (size - List.length (acc ++ data)))
             by (rewrite length_app;
                 replace (size - (List.length acc + List.length data))%nat
                   with (S k) by lia; reflexivity).
           apply IH; auto.
           ++ rewrite length_app. lia.
           ++ rewrite length_app. lia.
      * (* transport failure *)
        cbn. eexists. apply finish_frame; auto; lia.
Qed.

(** The frame reader does what the specification says of it when the
    buffer starts out zeroed, no NUL byte arrives, and fewer bytes than the
    capacity arrive in all. *)
Lemma http_decode_frame (w : World) :
  0 < max_reqsize cfg ->
  zeroed w (Z.to_nat (max_reqsize cfg)) ->
  Forall (fun a => nul_free (arrival_bytes a)) (incoming w) ->
  (total_bytes (incoming w) < Z.to_nat (max_reqsize cfg))%nat ->
  exists w',
    http_decode sock cfg w =
      Done (frame (Z.to_nat (max_reqsize cfg)) [] (incoming w), w') /\
    trace w' = trace w.
Proof.
  intros Hm Hz Hd Ht.
  assert (Hnot : (max_reqsize cfg <=? 0) = false) by (apply Z.leb_gt; lia).
  destruct (decode_loop_frame (Z.to_nat (max_reqsize cfg))
              ltac:(lia) (incoming w) (Z.to_nat (max_reqsize cfg)) [] w
              eq_refl (Forall_nil _) Hd ltac:(cbn; lia) ltac:(cbn; lia))
    as (w' & Hw).
  cbn [app List.length] in Hw. rewrite Nat.sub_0_r in Hw.
  assert (He : http_decode sock cfg w =
               Done (frame (Z.to_nat (max_reqsize cfg)) [] (incoming w), w')).
  { unfold http_decode. rewrite Hnot, (stack_zeroed w _ Hz). exact Hw. }
  exists w'. split; [exact He|].
  exact (http_decode_trace sock cfg w w' _ He).
Qed.

End FrameRefinement.

(** C4, at a first segment that fills the buffer: with the capacity 8192
    that [main] configures and 8192 bytes without a blank line arriving at
    once, the buffer holds no terminator when it is searched, whatever the
    stack held before; and with one stray byte after the 32 bytes of a
    short request, the body handed out ends in a byte that never arrived. *)
Theorem http_decode_unterminated (stack : nat -> ascii) :
  http_decode 3 (mkConfiguration 80 8192 8192 true)
    (mkWorld [Data (repeat "a"%char (Z.to_nat 8192))] [] stack 0 [])
    = Fault OutOfBounds /\
  http_decode 3 (mkConfiguration 80 8192 8192 true)
    (mkWorld [Data (list_ascii_of_string
                      ("GET / HTTP/1.1" ++ crlf "" ++ "Host: x"
                         ++ separator ++ "hello"))]
             [] (fun i => if (i =? 32)%nat then "!"%char else zero) 0 [])
    = Done ((Some ("GET / HTTP/1.1" ++ crlf "" ++ "Host: x"), Some "hello!"),
            mkWorld [] []
              (fun i => if (i =? 32)%nat then "!"%char else zero) 0 []).
Proof. split; vm_compute; reflexivity. Qed.

(* ================================================================== *)
(** * Request handler and the size limit *)
(* ================================================================== *)

Section Handler.

Variable cfg : Configuration.

Lemma sends_app (t u : list event) : sends (t ++ u) = (sends t ++ sends u)%list.
Proof. apply filter_app. Qed.

Lemma sends_printf (w : World) (text : string) :
  sends (trace (with_event w (Printf text))) = sends (trace w).
Proof. cbn [with_event trace]. rewrite sends_app. cbn. apply app_nil_r. Qed.

Lemma sends_close (w : World) (s : SOCKET) :
  sends (trace (with_event w (CloseSocket s))) = sends (trace w).
Proof. cbn [with_event trace]. rewrite sends_app. cbn. apply app_nil_r. Qed.

Lemma header_loop_quiet (fuel : nat) :
  forall saveptr r w r' w',
    header_loop fuel saveptr r w = Done (r', w') ->
    req_connection r' = req_connection r /\
    sends (trace w') = sends (trace w).
Proof.
  induction fuel as [|fuel IH]; intros sp r w r' w'; cbn [header_loop].
  - destruct (strtok_r sp LF) as [[l s']|]; [discriminate|].
    now intros [= <- <-].
  - destruct (strtok_r sp LF) as [[l s']|]; [|now intros [= <- <-]].
    unfold parse_header_line.
    destruct (strchr l ":") as [colon|].
    + intros H. apply IH in H as [Hc Ht]. now split.
    + unfold bind, printf, emit, ret. intros [= <- <-].
      split; [reflexivity | apply sends_printf].
Qed.

Lemma new_request_quiet (conn : SOCKET) (headers : string) (w : World)
    (r : Request) (w' : World) :
  new_request conn headers w = Done (r, w') ->
  req_connection r = conn /\ sends (trace w') = sends (trace w).
Proof.
  unfold new_request.
  destruct (strtok_r headers LF) as [[l sp]|]; [|now intros [= <- <-]].
  unfold parse_status_line.
  destruct (strchr l " ") as [s1|]; [|now intros [= <- <-]].
  destruct (strchr _ " ") as [s2|]; [|now intros [= <- <-]].
  intros H. apply header_loop_quiet in H as [Hc Ht]. now split.
Qed.

Lemma display_headers_quiet (hs : list Header) :
  forall w w', display_headers hs w = Done (tt, w') ->
               sends (trace w') = sends (trace w).
Proof.
  induction hs as [|h hs IH]; intros w w'; cbn [display_headers].
  - now intros [= <-].
  - unfold bind, printf, emit. intros H. apply IH in H.
    now rewrite sends_printf in H.
Qed.

Lemma display_request_details_quiet (r : Request) (b : option string)
    (w w' : World) :
  display_request_details r b w = Done (tt, w') ->
  sends (trace w') = sends (trace w).
Proof.
  unfold display_request_details, bind, deref, ret, fail.
  destruct (method r); [|discriminate].
  destruct (path r); [|discriminate].
  destruct (req_http_version r); [|discriminate].
  unfold printf, emit.
  destruct (display_headers _ _) as [[[] w1]|] eqn:E; [|discriminate].
  apply display_headers_quiet in E. rewrite !sends_printf in E.
  destruct b.
  - intros [= <-]. now rewrite !sends_printf.
  - intros [= <-]. now rewrite sends_printf.
Qed.

(** The response of the handler always encodes to [hello_encoded]. *)
Lemma encode_hello (conn : SOCKET) (version : option string) (w : World) :
  encode (mkResponse conn 0 [] 200 version hello_page None) w =
  Done (mkResponse conn 2 (synthesized hello_page) 200 version hello_page
                   (Some hello_encoded), w).
Proof.
  apply (encode_fits (mkResponse conn 0 [] 200 version hello_page None) "OK").
  - reflexivity.
  - vm_compute. split; [reflexivity | discriminate].
Qed.

(** With a limit no larger than the response, the handler sends nothing;
    and whenever it returns it has closed the connection last. *)
Lemma handle_request_over_limit (conn : SOCKET) (w w' : World) :
  0 <= max_ressize cfg <= INT_MAX ->
  max_ressize cfg <= Z.of_nat (String.length hello_encoded) ->
  handle_request conn cfg w = Done (tt, w') ->
  sends (trace w') = sends (trace w) /\
  exists t, trace w' = (t ++ [CloseSocket conn])%list.
Proof.
  intros Hm Hl. unfold handle_request. unfold bind at 1.
  destruct (http_decode conn cfg w) as [[[hd b] w1]|] eqn:Ed; [|discriminate].
  apply http_decode_trace in Ed.
  destruct hd as [hd|].
  - unfold bind at 1.
    destruct (new_request conn hd w1) as [[r w2]|] eqn:En; [|discriminate].
    apply new_request_quiet in En as [Hc Hn].
    unfold bind at 1.
    destruct (method_is_set r).
    + unfold bind at 1.
      destruct (display_request_details r b w2) as [[[] w3]|] eqn:Dd;
        [|discriminate].
      apply display_request_details_quiet in Dd.
      unfold bind at 1, strdup, deref.
      destruct (req_http_version r) as [v|]; [|discriminate].
      unfold ret at 1.
      rewrite (send_response_too_large cfg _ _ w3 w3 hello_encoded Hm
                 (encode_hello _ (Some v) w3) eq_refl Hl).
      unfold free_request_resources, free_request, closesocket, emit.
      intros [= <-]. rewrite Hc. split.
      * rewrite sends_close, sends_printf. congruence.
      * eexists. reflexivity.
    + unfold ret at 1.
      unfold free_request_resources, free_request, closesocket, emit.
      intros [= <-]. rewrite Hc. split.
      * rewrite sends_close. congruence.
      * eexists. reflexivity.
  - unfold bind, printf, closesocket, emit. intros [= <-]. split.
    + rewrite sends_close, sends_printf. congruence.
    + eexists. reflexivity.
Qed.

End Handler.

(** C7.  For a limit that is a size (a non-negative [int]): a response
    whose encoded length exceeds [max_ressize], or reaches it, is not sent
    and one diagnostic is printed; in the handler, whose response is
    [hello_encoded], nothing is sent under such a limit and the connection
    is closed as the last action. *)
Theorem response_over_limit_not_sent (cfg : Configuration) :
  0 <= max_ressize cfg <= INT_MAX ->
  (forall r r' w w1 encoded,
     encode r w = Done (r', w1) ->
     encoded_response r' = Some encoded ->
     max_ressize cfg <= Z.of_nat (String.length encoded) ->
     send_response cfg r w =
     Done (tt, with_event w1 (Printf
       ("Attempted to send response that exceeds configuration->max_ressize. Response size: "
          ++ decimal (Z.of_nat (String.length encoded)))))) /\
  (forall conn w w',
     max_ressize cfg <= Z.of_nat (String.length hello_encoded) ->
     handle_request conn cfg w = Done (tt, w') ->
     sends (trace w') = sends (trace w) /\
     exists t, trace w' = (t ++ [CloseSocket conn])%list).
Proof.
  intros Hm. split.
  - intros r r' w w1 encoded. apply send_response_too_large. exact Hm.
  - intros conn w w'. apply handle_request_over_limit. exact Hm.
Qed.

Lemma response_over_limit_not_sent_witness :
  send_response (mkConfiguration 80 8192 10 true)
                (fresh_response 3 200 (Some "HTTP/1.1") "hello")
                (mkWorld [] [] (fun _ => zero) 0 []) =
    Done (tt, mkWorld [] [] (fun _ => zero) 0
      [Printf "Attempted to send response that exceeds configuration->max_ressize. Response size: 62"]) /\
  exists w',
    handle_request 3 (mkConfiguration 80 8192 10 true)
      (mkWorld [Data (list_ascii_of_string
                        ("GET / HTTP/1.1" ++ separator ++ "hello"))]
               [] (fun _ => zero) 0 []) = Done (tt, w') /\
    sends (trace w') = [] /\
    exists t, trace w' = (t ++ [CloseSocket 3])%list.
Proof.
  assert (Hm : 0 <= max_ressize (mkConfiguration 80 8192 10 true) <= INT_MAX)
    by (vm_compute; split; discriminate).
  destruct (response_over_limit_not_sent _ Hm) as [HA HB].
  split.
  - match eval vm_compute in
          (encode (fresh_response 3 200 (Some "HTTP/1.1") "hello")
                  (mkWorld [] [] (fun _ => zero) 0 [])) with
    | Done (?r', ?w1) =>
        match eval vm_compute in (encoded_response r') with
        | Some ?e =>
            exact (HA (fresh_response 3 200 (Some "HTTP/1.1") "hello") r'
                      (mkWorld [] [] (fun _ => zero) 0 []) w1 e
                      eq_refl eq_refl
                      ltac:(vm_compute; discriminate))
        end
    end.
  - eexists. split; [vm_compute; reflexivity|].
    refine (HB 3 (mkWorld [Data (list_ascii_of_string
                                   ("GET / HTTP/1.1" ++ separator ++ "hello"))]
                          [] (fun _ => zero) 0 []) _ _ _).
    + vm_compute. discriminate.
    + vm_compute. reflexivity.
Defined.

(** A negative [max_ressize] is no size: compared as a [size_t], -1 is the
    largest value there is, and the 98 bytes are sent. *)
Lemma negative_limit_still_sends :
  (max_ressize (mkConfiguration 80 8192 (-1) true)
     <? Z.of_nat (String.length hello_encoded)) = true /\
  encode (fresh_response 3 200 (Some "HTTP/1.1") hello_page)
         (mkWorld [] [] (fun _ => zero) 0 []) =
    Done (mkResponse 3 2 (synthesized hello_page) 200 (Some "HTTP/1.1")
                     hello_page (Some hello_encoded),
          mkWorld [] [] (fun _ => zero) 0 []) /\
  send_response (mkConfiguration 80 8192 (-1) true)
                (fresh_response 3 200 (Some "HTTP/1.1") hello_page)
                (mkWorld [] [] (fun _ => zero) 0 []) =
    Done (tt, mkWorld [] [] (fun _ => zero) 0 [Send 3 hello_encoded 98 98]).
Proof. repeat split. Qed.

(* ================================================================== *)
(** * Further properties of the string helpers *)
(* ================================================================== *)

Section MoreStrings.

Lemma skip_space_split (s : string) :
  exists l, s = l ++ skip_space s /\ all_space l = true.
Proof.
  induction s as [|c s (l & Hl & Ha)]; [now exists ""|].
  cbn [skip_space]. destruct (isspace c) eqn:E.
  - exists (String c l). cbn. now rewrite <- Hl, E, Ha.
  - now exists "".
Qed.

Lemma char_at_drop (n i : nat) (s : string) :
  char_at (drop n s) i = char_at s (n + i).
Proof.
  revert s; induction n as [|n IH]; intros [|c s]; cbn; auto.
Qed.

Lemma all_space_chars (t : string) :
  (forall i, (i < String.length t)%nat -> isspace (char_at t i) = true) ->
  all_space t = true.
Proof.
  induction t as [|c t IH]; intros H; [reflexivity|].
  cbn [all_space]. apply andb_true_iff. split.
  - apply (H O). cbn. lia.
  - apply IH. intros i Hi. apply (H (S i)). cbn. lia.
Qed.

(** What the second loop has passed over is whitespace. *)
Lemma scan_back_passed (str : string) (e i : nat) :
  (scan_back str e < i <= e)%nat -> isspace (char_at str i) = true.
Proof.
  induction e as [|e IH]; cbn [scan_back]; [lia|].
  destruct (isspace (char_at str (S e))) eqn:E; [|lia].
  intros H. destruct (Nat.eq_dec i (S e)) as [->|N]; [exact E|].
  apply IH. lia.
Qed.

Lemma append_assoc (a b c : string) : (a ++ b) ++ c = a ++ b ++ c.
Proof. induction a as [|x a IH]; cbn; [reflexivity | now rewrite IH]. Qed.

Lemma append_nil_r (a : string) : a ++ "" = a.
Proof. induction a as [|x a IH]; cbn; [reflexivity | now rewrite IH]. Qed.

Lemma append_length (a b : string) :
  String.length (a ++ b) = (String.length a + String.length b)%nat.
Proof. induction a as [|x a IH]; cbn; [reflexivity | now rewrite IH]. Qed.

Lemma count_char_app (c : ascii) (a b : string) :
  count_char c (a ++ b) = (count_char c a + count_char c b)%nat.
Proof.
  induction a as [|x a IH]; cbn; [reflexivity|]. rewrite IH. lia.
Qed.

(** A found character: the text splits there, and not before. *)
Lemma strchr_found (s : string) (c : ascii) (n : nat) :
  strchr s c = Some n ->
  s = take n s ++ String c (drop (S n) s) /\ count_char c (take n s) = O.
Proof.
  revert n; induction s as [|a s IH]; intros n; cbn [strchr]; [discriminate|].
  destruct (Ascii.eqb a c) eqn:E.
  - intros [= <-]. apply Ascii.eqb_eq in E. subst a. now split.
  - destruct (strchr s c) as [k|]; [|discriminate]. intros [= <-].
    destruct (IH k eq_refl) as [H1 H2]. cbn. rewrite E. split; [|exact H2].
    f_equal. exact H1.
Qed.

Lemma strtok_r_token (s line saveptr : string) (d : ascii) :
  strtok_r s d = Some (line, saveptr) ->
  line <> "" /\ count_char d line = O.
Proof.
  unfold strtok_r.
  assert (Hhd : match drop (strspn s d) s with
                | EmptyString => True
                | String a _ => Ascii.eqb a d = false
                end).
  { induction s as [|a s IH]; cbn; [exact I|].
    destruct (Ascii.eqb a d) eqn:E; cbn; [exact IH | exact E]. }
  destruct (drop (strspn s d) s) as [|a t]; [discriminate|].
  intros [= <- _]. cbn [strcspn]. rewrite Hhd. cbn. split; [discriminate|].
  rewrite Hhd. cbn. clear. induction t as [|b t IH]; cbn; [reflexivity|].
  destruct (Ascii.eqb b d) eqn:E; cbn; [reflexivity | now rewrite E].
Qed.

Lemma trim_whitespace_split (s : string) :
  exists l r, s = l ++ trim_whitespace s ++ r /\
              all_space l = true /\ all_space r = true.
Proof.
  destruct (skip_space_split s) as (l & Hl & Hal).
  unfold trim_whitespace.
  destruct (skip_space s) as [|c t] eqn:E.
  - exists l, "". repeat split; auto.
  - set (str := String c t) in *.
    set (e := scan_back str (String.length str - 1)) in *.
    exists l, (drop (S e) str). repeat split; auto.
    + now rewrite take_drop.
    + apply all_space_chars. intros i Hi.
      rewrite drop_length in Hi. rewrite char_at_drop.
      apply (scan_back_passed str (String.length str - 1)). fold e. lia.
Qed.

End MoreStrings.

(** X1.  [trim_whitespace] removes whitespace at the two ends and nothing
    else: every string is some whitespace, then its trimmed form, then some
    whitespace, and the trimmed form neither starts nor ends with
    whitespace. *)
Theorem trim_whitespace_removes_only_ends (s : string) :
  exists l r,
    s = l ++ trim_whitespace s ++ r /\
    all_space l = true /\ all_space r = true /\
    is_trimmed (trim_whitespace s) = true.
Proof.
  destruct (trim_whitespace_split s) as (l & r & Hs & Hl & Hr).
  exists l, r. repeat split; auto. apply trim_is_trimmed.
Qed.

(** X2.  The lines the parser works on are never empty and never contain
    a line feed: [strtok_r] skips runs of line feeds and cuts at the next
    one. *)
Theorem lines_of_nonempty_no_lf (headers : string) :
  Forall (fun line => line <> "" /\ count_char LF line = O) (lines_of headers).
Proof.
  remember (String.length headers) as k eqn:Hk. revert headers Hk.
  induction k as [k IH] using lt_wf_ind; intros s Hk.
  destruct (strtok_r s LF) as [[line sp]|] eqn:E.
  - rewrite (lines_of_step _ _ _ E). constructor.
    + exact (strtok_r_token _ _ _ _ E).
    + apply (IH (String.length sp)); [|reflexivity].
      apply strtok_r_shorter in E. lia.
  - rewrite (lines_of_done _ E). constructor.
Qed.

(** An accepted line is a request line, and its three parts are stored. *)
Lemma parse_status_line_true (line : string) (r r' : Request) :
  parse_status_line line r = (true, r') <->
  exists m p v,
    line = request_line m p v /\
    count_char " " m = O /\ count_char " " p = O /\
    r' = mkRequest (req_connection r) (req_header_count r) (req_headers r)
                   (Some m) (Some p) (Some v).
Proof.
  split.
  - unfold parse_status_line.
    destruct (strchr line " ") as [s1|] eqn:E1; [|discriminate].
    destruct (strchr (drop (S s1) line) " ") as [s2|] eqn:E2; [|discriminate].
    intros [= <-].
    destruct (strchr_found _ _ _ E1) as [H1 C1].
    destruct (strchr_found _ _ _ E2) as [H2 C2].
    exists (take s1 line), (take s2 (drop (S s1) line)),
           (drop (S s2) (drop (S s1) line)).
    repeat split; auto.
    unfold request_line. now rewrite <- H2.
  - intros (m & p & v & -> & Hm & Hp & ->).
    now rewrite (parse_status_line_two_spaces m p v r Hm Hp).
Qed.

(** X3.  [parse_status_line] accepts exactly the lines of the form
    method, space, path, space, version with no space inside method and
    path (the version may hold more spaces), and stores these three parts. *)
Theorem parse_status_line_accepts (line : string) (r r' : Request) :
  parse_status_line line r = (true, r') <->
  exists m p v,
    line = request_line m p v /\
    count_char " " m = O /\ count_char " " p = O /\
    r' = mkRequest (req_connection r) (req_header_count r) (req_headers r)
                   (Some m) (Some p) (Some v).
Proof. apply parse_status_line_true. Qed.

(* ================================================================== *)
(** * Further properties of the request parser *)
(* ================================================================== *)

Section MoreParser.

Lemma trim_whitespace_no_new_char (c : ascii) (s : string) :
  count_char c s = O -> count_char c (trim_whitespace s) = O.
Proof.
  destruct (trim_whitespace_split s) as (l & r & Hs & _).
  intros H. rewrite Hs, !count_char_app in H. lia.
Qed.

Lemma parse_header_line_tidy (line : string) (r r' : Request) :
  parse_header_line line r = (true, r') ->
  exists h, r' = push_header r h /\ tidy h.
Proof.
  unfold parse_header_line.
  destruct (strchr line ":") as [colon|] eqn:E; [|discriminate].
  intros [= <-]. eexists. split; [reflexivity|].
  destruct (strchr_found _ _ _ E) as [_ Hc].
  repeat split; cbn [name value].
  - apply trim_is_trimmed.
  - apply trim_is_trimmed.
  - now apply trim_whitespace_no_new_char.
Qed.

(** What the header loop keeps and what it may change. *)
Lemma header_loop_keeps (fuel : nat) :
  forall saveptr r w,
    (String.length saveptr <= fuel)%nat ->
    exists r' w',
      header_loop fuel saveptr r w = Done (r', w') /\
      req_connection r' = req_connection r /\
      path r' = path r /\ req_http_version r' = req_http_version r /\
      (counted_and_tidy r -> counted_and_tidy r') /\
      ((w' = w /\ method r' = method r) \/
       (exists line, w' = with_event w (malformed_diagnostic line) /\
                     method r' = None)).
Proof.
  induction fuel as [|fuel IH]; intros sp r w Hf; cbn [header_loop].
  - destruct (strtok_r sp LF) as [[l s']|] eqn:E.
    + apply strtok_r_shorter in E. lia.
    + exists r, w. split; [reflexivity|]. do 3 (split; [reflexivity|]).
      split; [auto | left; split; reflexivity].
  - destruct (strtok_r sp LF) as [[l s']|] eqn:E.
    + pose proof (strtok_r_shorter _ _ _ _ E) as Hs.
      destruct (parse_header_line l r) as [[] r1] eqn:P.
      * destruct (parse_header_line_tidy _ _ _ P) as (h & -> & Hh).
        destruct (IH s' (push_header r h) w ltac:(lia))
          as (r' & w' & Hrun & Hc & Hp & Hv & Hg & Hm).
        exists r', w'. split; [exact Hrun|].
        do 3 (split; [assumption|]). split; [|exact Hm].
        intros [G1 G2]. apply Hg. split; cbn.
        -- rewrite G1. lia.
        -- now constructor.
      * unfold parse_header_line in P.
        destruct (strchr l ":"); [discriminate|]. injection P as <-.
        eexists _, _. split; [reflexivity|].
        do 3 (split; [reflexivity|]). split; [auto|].
        right. exists l. split; reflexivity.
    + exists r, w. split; [reflexivity|]. do 3 (split; [reflexivity|]).
      split; [auto | left; split; reflexivity].
Qed.

Lemma strchr_none_count (s : string) (c : ascii) :
  strchr s c = None -> count_char c s = O.
Proof.
  induction s as [|a s IH]; cbn; [reflexivity|].
  destruct (Ascii.eqb a c); [discriminate|].
  destruct (strchr s c); [discriminate|]. intros _. now apply IH.
Qed.

(** A line with at least two spaces is a request line. *)
Lemma two_spaces_request_line (line : string) :
  (2 <= count_char " " line)%nat ->
  exists m p v, line = request_line m p v /\
                count_char " " m = O /\ count_char " " p = O.
Proof.
  intros H.
  destruct (strchr line " ") as [s1|] eqn:E1;
    [|apply strchr_none_count in E1; lia].
  destruct (strchr_found _ _ _ E1) as [H1 C1].
  assert (Hr : (1 <= count_char " " (drop (S s1) line))%nat).
  { assert (Hc : count_char " " line =
                 (count_char " " (take s1 line)
                  + S (count_char " " (drop (S s1) line)))%nat).
    { rewrite H1 at 1. rewrite count_char_app. reflexivity. }
    lia. }
  destruct (strchr (drop (S s1) line) " ") as [s2|] eqn:E2;
    [|apply strchr_none_count in E2; lia].
  destruct (strchr_found _ _ _ E2) as [H2 C2].
  exists (take s1 line), (take s2 (drop (S s1) line)),
         (drop (S s2) (drop (S s1) line)).
  repeat split; auto. unfold request_line. now rewrite <- H2.
Qed.

Lemma strcspn_first (t rest : string) (d : ascii) :
  count_char d t = O -> strcspn (t ++ String d rest) d = String.length t.
Proof.
  induction t as [|b t IH]; cbn.
  - now rewrite Ascii.eqb_refl.
  - destruct (Ascii.eqb b d); [discriminate|]. intros H. now rewrite IH.
Qed.

Lemma strtok_r_first_line (t rest : string) :
  t <> "" -> count_char LF t = O ->
  strtok_r (t ++ String LF rest) LF = Some (t, rest).
Proof.
  intros Hne Hc. unfold strtok_r.
  assert (Hs : strspn (t ++ String LF rest) LF = O).
  { destruct t as [|a t]; [contradiction|]. cbn in *.
    now destruct (Ascii.eqb a LF). }
  rewrite Hs.
  change (drop O (t ++ String LF rest)) with (t ++ String LF rest).
  cbv zeta. rewrite (strcspn_first t rest LF Hc), take_app, drop_app_S.
  destruct t; [contradiction | reflexivity].
Qed.

Lemma new_request_well_formed_run
    (conn : SOCKET) (headers m p v : string) (lines : list string)
    (w : World) :
  lines_of headers = request_line m p v :: lines ->
  count_char " " m = O -> count_char " " p = O ->
  Forall has_colon lines ->
  new_request conn headers w =
  Done (mkRequest conn (Z.of_nat (List.length lines))
                  (rev (map header_of_line lines))
                  (Some m) (Some p) (Some v), w).
Proof.
  intros Hl Hm Hp Hc. apply lines_of_cons in Hl as (sp & E & Hl).
  destruct (split_colon_lines lines Hc) as [Hs Hf].
  rewrite <- Hs in Hl.
  unfold new_request. rewrite E.
  rewrite (parse_status_line_two_spaces m p v _ Hm Hp).
  rewrite (header_loop_well_formed _ _ sp _ w (le_n _) Hl Hf).
  rewrite push_all_fields. cbn.
  now rewrite !length_map, app_nil_r, map_map.
Qed.

Lemma new_request_malformed_run
    (conn : SOCKET) (headers m p v bad : string)
    (pre post : list string) (w : World) :
  lines_of headers = request_line m p v :: (pre ++ bad :: post)%list ->
  count_char " " m = O -> count_char " " p = O ->
  Forall has_colon pre -> ~ has_colon bad ->
  new_request conn headers w =
  Done (mkRequest conn (Z.of_nat (List.length pre))
                  (rev (map header_of_line pre))
                  None (Some p) (Some v),
        with_event w (malformed_diagnostic bad)).
Proof.
  intros Hl Hm Hp Hc Hb.
  apply lines_of_cons in Hl as (sp & E & Hl).
  destruct (split_colon_lines pre Hc) as [Hs Hf].
  rewrite <- Hs in Hl.
  assert (Hb0 : count_char ":" bad = O).
  { unfold has_colon in Hb.
    destruct (count_char ":" bad); [reflexivity|].
    exfalso. apply Hb. discriminate. }
  unfold new_request. rewrite E.
  rewrite (parse_status_line_two_spaces m p v _ Hm Hp).
  rewrite (header_loop_malformed _ _ sp bad post _ w (le_n _) Hl Hf Hb0).
  rewrite push_all_fields. cbn.
  now rewrite !length_map, app_nil_r, map_map.
Qed.

End MoreParser.

Lemma new_request_run (conn : SOCKET) (headers : string) (w : World) :
  exists r w',
    new_request conn headers w = Done (r, w') /\
    req_connection r = conn /\
    req_header_count r = Z.of_nat (List.length (req_headers r)) /\
    Forall tidy (req_headers r) /\
    (w' = w \/ exists line, w' = with_event w (malformed_diagnostic line)).
Proof.
  unfold new_request.
  destruct (strtok_r headers LF) as [[l sp]|].
  - destruct (parse_status_line l _) as [[] r1] eqn:P.
    + apply parse_status_line_true in P as (m & p & v & _ & _ & _ & ->).
      destruct (header_loop_keeps _ sp
                  (mkRequest conn 0 [] (Some m) (Some p) (Some v)) w (le_n _))
        as (r' & w' & Hrun & Hc & _ & _ & Hg & Hm).
      exists r', w'. split; [exact Hrun|].
      destruct Hg as [G1 G2]; [split; [reflexivity | constructor]|].
      repeat split; auto.
      destruct Hm as [[-> _] | (line & -> & _)]; [now left | right; eauto].
    + unfold parse_status_line in P.
      destruct (strchr l " ") as [s1|].
      * destruct (strchr _ " "); [discriminate|]. injection P as <-.
        eexists _, _. split; [reflexivity|]. repeat split; auto.
      * injection P as <-.
        eexists _, _. split; [reflexivity|]. repeat split; auto.
  - eexists _, _. split; [reflexivity|]. repeat split; auto.
Qed.

(** X4.  Whatever the header text, [new_request] returns a request for
    the same connection whose header count is the length of its header
    list and whose entries all have trimmed names and values and no colon
    in the name; it prints nothing, or the one diagnostic of a malformed
    header line. *)
Theorem new_request_invariants (conn : SOCKET) (headers : string) (w : World) :
  exists r w',
    new_request conn headers w = Done (r, w') /\
    req_connection r = conn /\
    req_header_count r = Z.of_nat (List.length (req_headers r)) /\
    Forall tidy (req_headers r) /\
    (w' = w \/ exists line, w' = with_event w (malformed_diagnostic line)).
Proof. apply new_request_run. Qed.

Lemma new_request_validity (conn : SOCKET) (headers : string) (w : World) :
  exists r w',
    new_request conn headers w = Done (r, w') /\
    (method_is_set r = true <-> answerable headers).
Proof.
  unfold answerable.
  destruct (lines_of headers) as [|line rest] eqn:Hl.
  - eexists _, _. split; [exact (new_request_no_line conn headers w Hl)|].
    split; [discriminate|]. intros (? & ? & [=] & _).
  - destruct (Nat.lt_trichotomy (count_char " " line) 1) as [H0|[H1|H2]].
    + eexists _, _. split;
        [apply (new_request_no_space conn headers line rest w Hl); lia|].
      split; [discriminate|].
      intros (l' & rest' & [= <- <-] & [?|[? _]]); lia.
    + destruct (count_char_one " " line H1) as (m & t & -> & Hm & Ht).
      pose proof Hl as Hl'. apply lines_of_cons in Hl' as (sp & E & _).
      eexists _, _. split.
      * unfold new_request. rewrite E.
        now rewrite (parse_status_line_one_space m t _ Hm Ht).
      * split; [|reflexivity].
        intros _. eexists _, _. split; [reflexivity|]. now left.
    + destruct (two_spaces_request_line line ltac:(lia))
        as (m & p & v & -> & Hm & Hp).
      destruct (Forall_Exists_dec has_colon has_colon_dec rest) as [Hall|Hex].
      * eexists _, _. split;
          [exact (new_request_well_formed_run conn headers m p v rest w
                    Hl Hm Hp Hall)|].
        split; [|reflexivity].
        intros _. eexists _, _. split; [reflexivity|]. right. split; [lia|auto].
      * apply Exists_exists in Hex.
        destruct (first_without_colon rest Hex)
          as (pre & bad & post & -> & Hpre & Hbad).
        eexists _, _. split;
          [exact (new_request_malformed_run conn headers m p v bad pre post w
                    Hl Hm Hp Hpre Hbad)|].
        split; [discriminate|].
        intros (l' & rest' & [= <- <-] & [?|[_ Hall]]); [lia|].
        apply Forall_app in Hall as [_ Hall]. inversion Hall; contradiction.
Qed.

(** X5.  The requests the handler answers.  The request [new_request]
    returns has its method set exactly when the first line has one space
    (the request line is rejected, the method stays), or has at least two
    spaces and every later line has a colon. *)
Theorem new_request_method_set (conn : SOCKET) (headers : string) (w : World) :
  exists r w',
    new_request conn headers w = Done (r, w') /\
    (method_is_set r = true <->
     exists line rest,
       lines_of headers = line :: rest /\
       (count_char " " line = 1%nat \/
        ((2 <= count_char " " line)%nat /\ Forall has_colon rest))).
Proof. apply new_request_validity. Qed.

(** X6.  A header text without any line, or whose first line has no
    space, gives back the blank request: nothing stored, nothing printed. *)
Theorem new_request_blank (conn : SOCKET) (headers : string) (w : World) :
  (forall line, hd_error (lines_of headers) = Some line ->
                count_char " " line = O) ->
  new_request conn headers w = Done (blank_request conn, w).
Proof.
  intros H. destruct (lines_of headers) as [|line rest] eqn:Hl.
  - exact (new_request_no_line conn headers w Hl).
  - apply (new_request_no_space conn headers line rest w Hl).
    apply H. reflexivity.
Qed.

Lemma new_request_blank_witness :
  new_request 3 (String LF (String LF "")) (mkWorld [] [] (fun _ => zero) 0 [])
    = Done (blank_request 3, mkWorld [] [] (fun _ => zero) 0 []) /\
  new_request 3 ("GET" ++ String LF "Host: x")
              (mkWorld [] [] (fun _ => zero) 0 [])
    = Done (blank_request 3, mkWorld [] [] (fun _ => zero) 0 []).
Proof.
  split.
  - apply new_request_blank. cbn. discriminate.
  - apply new_request_blank. cbn. intros line [= <-]. reflexivity.
Defined.

(** X7.  Lines are cut at line feeds only.  For a request line ended by
    CR LF the stored version is the version text followed by the carriage
    return; path and version are stored whatever follows, also when a later
    header line is malformed and the method is reset. *)
Theorem new_request_version_keeps_cr
    (conn : SOCKET) (m p v rest : string) (w : World) :
  count_char " " m = O -> count_char " " p = O ->
  count_char LF (request_line m p v) = O ->
  exists r w',
    new_request conn (crlf (request_line m p v) ++ rest) w = Done (r, w') /\
    path r = Some p /\
    req_http_version r = Some (v ++ String CR "").
Proof.
  intros Hm Hp Hlf.
  assert (Htext : crlf (request_line m p v) ++ rest =
                  request_line m p (v ++ String CR "") ++ String LF rest).
  { unfold crlf, request_line, CR, LF.
    repeat (rewrite ?append_assoc; cbn [append]). reflexivity. }
  assert (Hline : request_line m p (v ++ String CR "") =
                  request_line m p v ++ String CR "").
  { unfold request_line.
    repeat (rewrite ?append_assoc; cbn [append]). reflexivity. }
  assert (Htok : strtok_r (crlf (request_line m p v) ++ rest) LF =
                 Some (request_line m p (v ++ String CR ""), rest)).
  { rewrite Htext. apply strtok_r_first_line.
    - unfold request_line. destruct m; discriminate.
    - rewrite Hline, count_char_app, Hlf. reflexivity. }
  unfold new_request. rewrite Htok.
  rewrite (parse_status_line_two_spaces m p _ _ Hm Hp).
  destruct (header_loop_keeps (String.length rest) rest
              (set_path_version
                 (set_method (mkRequest conn 0 [] None None None) (Some m))
                 (Some p) (Some (v ++ String CR ""))) w (le_n _))
    as (r' & w' & Hrun & _ & Hpath & Hver & _).
  exists r', w'. split; [exact Hrun|]. split; assumption.
Qed.

Lemma new_request_version_keeps_cr_witness :
  exists r w',
    new_request 3 (crlf (request_line "GET" "/" "HTTP/1.1") ++ "bogus")
                (mkWorld [] [] (fun _ => zero) 0 []) = Done (r, w') /\
    path r = Some "/" /\
    req_http_version r = Some ("HTTP/1.1" ++ String CR "").
Proof.
  apply new_request_version_keeps_cr; reflexivity.
Defined.

Section HeaderRoundTrip.

Lemma skip_space_padding (l x : string) :
  all_space l = true -> skip_space (l ++ x) = skip_space x.
Proof.
  induction l as [|c l IH]; cbn; [reflexivity|].
  intros H. apply andb_true_iff in H as [Hc Hl]. now rewrite Hc, IH.
Qed.

Lemma char_at_app_left (a b : string) (i : nat) :
  (i < String.length a)%nat -> char_at (a ++ b) i = char_at a i.
Proof.
  revert i; induction a as [|c a IH]; intros i H; cbn in *; [lia|].
  destruct i; [reflexivity | apply IH; lia].
Qed.

Lemma char_at_app_right (a b : string) (k : nat) :
  char_at (a ++ b) (String.length a + k) = char_at b k.
Proof. induction a as [|c a IH]; cbn; [reflexivity | exact IH]. Qed.

Lemma all_space_char (r : string) (k : nat) :
  all_space r = true -> (k < String.length r)%nat ->
  isspace (char_at r k) = true.
Proof.
  revert k; induction r as [|c r IH]; intros k H Hk; cbn in *; [lia|].
  apply andb_true_iff in H as [Hc Hr].
  destruct k; [exact Hc | apply IH; [exact Hr | lia]].
Qed.

(** Scanning back over trailing whitespace stops at the last character of
    a trimmed text. *)
Lemma scan_back_padding (c : ascii) (t r : string) (k : nat) :
  isspace (char_at (String c t) (String.length t)) = false ->
  all_space r = true -> (k <= String.length r)%nat ->
  scan_back (String c t ++ r) (String.length t + k) = String.length t.
Proof.
  intros Hlast Hr. induction k as [|k IH]; intros Hk.
  - rewrite Nat.add_0_r. apply scan_back_fixed.
    rewrite char_at_app_left by (cbn; lia). exact Hlast.
  - rewrite Nat.add_succ_r. cbn [scan_back].
    replace (S (String.length t + k))
      with (String.length (String c t) + k)%nat by (cbn; lia).
    rewrite char_at_app_right, (all_space_char r k Hr) by lia.
    apply IH. lia.
Qed.

(** Trimming removes a padding of whitespace around a trimmed text. *)
Lemma trim_whitespace_padded (l t r : string) :
  all_space l = true -> all_space r = true -> is_trimmed t = true ->
  trim_whitespace (l ++ t ++ r) = t.
Proof.
  intros Hl Hr Ht. unfold trim_whitespace.
  rewrite (skip_space_padding l _ Hl).
  destruct t as [|c t].
  - cbn [append]. now rewrite (skip_space_all r Hr).
  - unfold is_trimmed in Ht. apply andb_true_iff in Ht as [Hc He].
    apply negb_true_iff in Hc, He.
    cbn [String.length] in He. rewrite Nat.sub_1_r, Nat.pred_succ in He.
    cbn [append skip_space]. rewrite Hc.
    change (String c (t ++ r)) with (String c t ++ r).
    rewrite append_length. cbn [String.length].
    replace (S (String.length t) + String.length r - 1)%nat
      with (String.length t + String.length r)%nat by lia.
    rewrite (scan_back_padding c t r _ He Hr (le_n _)).
    change (S (String.length t)) with (String.length (String c t)).
    apply take_app.
Qed.

Lemma header_line_wire (h : Header) (rest : string) :
  header_line h ++ rest = wire_line h ++ String LF rest.
Proof.
  unfold header_line, wire_line, crlf, CR, LF.
  repeat (rewrite ?append_assoc; cbn [append]). reflexivity.
Qed.

Lemma wire_line_parsed (h : Header) :
  wire_safe h ->
  has_colon (wire_line h) /\ header_of_line (wire_line h) = h /\
  wire_line h <> "" /\ count_char LF (wire_line h) = O.
Proof.
  intros ((Hn & Hv & Hc) & Hln & Hlv). destruct h as [n v].
  cbn [name value] in Hn, Hv, Hc, Hln, Hlv.
  assert (Hw : wire_line (mkHeader n v)
               = n ++ String ":" (String " " (v ++ String CR "")))
    by reflexivity.
  rewrite !Hw. repeat split.
  - unfold has_colon. rewrite count_char_app. cbn. lia.
  - unfold header_of_line, split_colon, entry_of. cbn [fst snd].
    rewrite (strcspn_first n _ ":" Hc), take_app, drop_app_S.
    f_equal.
    + rewrite <- (append_nil_r n) at 1.
      apply (trim_whitespace_padded "" n ""); auto.
    + apply (trim_whitespace_padded (String " " "") v (String CR ""));
        auto.
  - destruct n; discriminate.
  - rewrite count_char_app. cbn. rewrite count_char_app, Hln, Hlv.
    reflexivity.
Qed.

Lemma lines_of_header_lines (hs : list Header) :
  Forall wire_safe hs -> lines_of (header_lines hs) = map wire_line hs.
Proof.
  induction 1 as [|h hs Hh _ IH]; [reflexivity|].
  cbn [header_lines map]. rewrite header_line_wire.
  destruct (wire_line_parsed h Hh) as (_ & _ & Hne & Hlf).
  rewrite (lines_of_step _ _ _ (strtok_r_first_line _ _ Hne Hlf)).
  now rewrite IH.
Qed.

Lemma wire_lines_read_back (hs : list Header) :
  Forall wire_safe hs ->
  Forall has_colon (map wire_line hs) /\
  map header_of_line (map wire_line hs) = hs.
Proof.
  induction 1 as [|h hs Hh _ [IH1 IH2]]; [split; [constructor | reflexivity]|].
  destruct (wire_line_parsed h Hh) as (H1 & H2 & _).
  cbn [map]. split; [now constructor | now rewrite H2, IH2].
Qed.

(** What [construct_headers] writes, [new_request] reads back. *)
Lemma new_request_header_lines
    (conn : SOCKET) (m p v : string) (hs : list Header) (w : World) :
  count_char " " m = O -> count_char " " p = O ->
  count_char LF (request_line m p v) = O ->
  Forall wire_safe hs ->
  new_request conn (crlf (request_line m p v) ++ header_lines hs) w =
  Done (mkRequest conn (Z.of_nat (List.length hs)) (rev hs)
                  (Some m) (Some p) (Some (v ++ String CR "")), w).
Proof.
  intros Hm Hp Hlf Hs.
  assert (Htext : crlf (request_line m p v) ++ header_lines hs =
                  request_line m p (v ++ String CR "")
                    ++ String LF (header_lines hs)).
  { unfold crlf, request_line, CR, LF.
    repeat (rewrite ?append_assoc; cbn [append]). reflexivity. }
  assert (Hline : request_line m p (v ++ String CR "") =
                  request_line m p v ++ String CR "").
  { unfold request_line.
    repeat (rewrite ?append_assoc; cbn [append]). reflexivity. }
  assert (Hl : lines_of (crlf (request_line m p v) ++ header_lines hs) =
               request_line m p (v ++ String CR "") :: map wire_line hs).
  { assert (Hne : request_line m p (v ++ String CR "") <> "")
      by (unfold request_line; destruct m; discriminate).
    assert (Hno : count_char LF (request_line m p (v ++ String CR "")) = O)
      by (rewrite Hline, count_char_app, Hlf; reflexivity).
    rewrite Htext.
    rewrite (lines_of_step _ _ _
               (strtok_r_first_line _ (header_lines hs) Hne Hno)).
    now rewrite lines_of_header_lines. }
  destruct (wire_lines_read_back hs Hs) as [Hc Hb].
  rewrite (new_request_well_formed_run conn _ m p _ _ w Hl Hm Hp Hc).
  now rewrite Hb, length_map.
Qed.

End HeaderRoundTrip.

(** X8.  Round trip of the header block.  The header lines the encoder
    writes for a list of headers (trimmed sides, no colon in the names, no
    line feed), put after a request line, are read back by the request
    parser as the same headers, in reverse order, with the same count. *)
Theorem header_lines_round_trip
    (conn : SOCKET) (m p v : string) (hs : list Header) (w : World) :
  count_char " " m = O -> count_char " " p = O ->
  count_char LF (request_line m p v) = O ->
  Forall wire_safe hs ->
  new_request conn (crlf (request_line m p v) ++ header_lines hs) w =
  Done (mkRequest conn (Z.of_nat (List.length hs)) (rev hs)
                  (Some m) (Some p) (Some (v ++ String CR "")), w).
Proof. apply new_request_header_lines. Qed.

Lemma header_lines_round_trip_witness :
  new_request 3
    (crlf (request_line "GET" "/" "HTTP/1.1")
       ++ header_lines [mkHeader "Host" "example.org";
                        mkHeader "Accept" "text/html, */*"])
    (mkWorld [] [] (fun _ => zero) 0 []) =
  Done (mkRequest 3 2 [mkHeader "Accept" "text/html, */*";
                       mkHeader "Host" "example.org"]
                  (Some "GET") (Some "/")
                  (Some ("HTTP/1.1" ++ String CR "")),
        mkWorld [] [] (fun _ => zero) 0 []).
Proof.
  apply (header_lines_round_trip 3 "GET" "/" "HTTP/1.1"
           [mkHeader "Host" "example.org";
            mkHeader "Accept" "text/html, */*"]);
    try reflexivity.
  repeat constructor.
Defined.

(* ================================================================== *)
(** * Further properties of the status table and the encoder *)
(* ================================================================== *)

Section MoreEncoder.

Lemma header_lines_app (a b : list Header) :
  header_lines (a ++ b) = header_lines a ++ header_lines b.
Proof.
  induction a as [|h a IH]; cbn [app header_lines]; [reflexivity|].
  now rewrite IH, append_assoc.
Qed.

Lemma header_lines_bound (hs : list Header) :
  Forall (fun h => (String.length (header_line h) <= 160)%nat) hs ->
  (String.length (header_lines hs) <= 160 * List.length hs)%nat.
Proof.
  induction 1 as [|h hs Hh _ IH]; cbn [header_lines List.length];
    [cbn; lia|].
  rewrite append_length. lia.
Qed.

Lemma synthesized_length (b : string) :
  String.length (header_lines (synthesized b)) =
  (37 + String.length (decimal (Z.of_nat (String.length b))))%nat.
Proof.
  unfold synthesized, header_lines, header_line, content_length_header,
    connection_close; cbn [name value].
  rewrite !append_length. cbn. lia.
Qed.

(** Under the assumption the code states for its header block, the block
    is large enough. *)
Lemma encode_bounded (r : Response) (phrase : string) (w : World) :
  reason (code r) = Done (Some phrase) ->
  header_count r = Z.of_nat (List.length (headers r)) ->
  Forall (fun h => (String.length (header_line h) <= 160)%nat) (headers r) ->
  (String.length (decimal (Z.of_nat (String.length (body r)))) < 20)%nat ->
  (header_count r + 2) * 160 <= INT_MAX ->
  encode r w =
  Done (mkResponse (connection r) (header_count r + 2)
                   (headers r ++ synthesized (body r)) (code r)
                   (http_version r) (body r)
                   (Some (status_line_of (code r) phrase
                            ++ header_lines (headers r ++ synthesized (body r))
                            ++ crlf "" ++ body r)), w).
Proof.
  intros Hk Hc Hl Hd Hm. apply encode_fits; [exact Hk|].
  split; [|exact Hm].
  rewrite header_lines_app, append_length, synthesized_length.
  pose proof (header_lines_bound _ Hl). lia.
Qed.

Lemma synthesized_lines_short (b : string) :
  (String.length (decimal (Z.of_nat (String.length b))) < 20)%nat ->
  Forall (fun h => (String.length (header_line h) <= 160)%nat)
         (synthesized b).
Proof.
  intros Hd. pose proof (synthesized_length b) as Hs.
  unfold synthesized in *. cbn [header_lines] in Hs.
  rewrite !append_length in Hs. cbn [String.length] in Hs.
  assert (Hc : String.length (header_line connection_close) = 19%nat)
    by reflexivity.
  constructor; [lia|]. constructor; [lia|]. constructor.
Qed.

Lemma to_int_small (z : Z) : 0 <= z <= INT_MAX -> to_int z = z.
Proof.
  unfold to_int, INT_MAX. intros H.
  rewrite Z.mod_small; lia.
Qed.

End MoreEncoder.

(** X10.  A non-negative code that [init_status_tbl] did not enter is
    reported as not found, also when it shares the slot of an entered code
    (712 and 200 both index slot 200). *)
Theorem reason_not_found (c : Z) :
  0 <= c -> (forall phrase, ~ known c phrase) -> reason c = Done None.
Proof.
  intros H0 Hk. apply reason_absent; auto; intros ->.
  - apply (Hk "OK"). now left.
  - apply (Hk "Created"). right; now left.
  - apply (Hk "No Content"). right; now right.
Qed.

Lemma reason_not_found_witness : reason 712 = Done None.
Proof.
  apply reason_not_found; [lia|].
  intros phrase [[H _]|[[H _]|[H _]]]; discriminate.
Defined.

Lemma unknown_code_not_sent_witness :
  send_response (mkConfiguration 80 8192 8192 true)
    (response_with 3 404 (Some "HTTP/1.1") "gone"
       [mkHeader "Content-Type" "text/plain"])
    (mkWorld [] [] (fun _ => zero) 0 []) =
  Done (tt, mkWorld [] [] (fun _ => zero) 0
              [Printf "Unrecognized reason for code: 404";
               Printf "No encoded response to send"]).
Proof.
  apply (unknown_code_not_sent (mkConfiguration 80 8192 8192 true) 3 404
           (Some "HTTP/1.1") "gone" [mkHeader "Content-Type" "text/plain"]);
    lia.
Defined.

(** X12.  [add_header] appends at the tail: after one call per header on
    a zero-initialised response the list holds the headers in call order
    and the count is their number; nothing else changes. *)
Theorem add_header_call_order (conn : SOCKET) (c : Z)
    (version : option string) (b : string) (hs : list Header) :
  fold_left (fun r h => add_header r (name h) (value h)) hs
            (mkResponse conn 0 [] c version b None) =
  mkResponse conn (Z.of_nat (List.length hs)) hs c version b None.
Proof. exact (response_with_fields conn c version b hs). Qed.

(** X13.  Encoding twice duplicates the synthesized headers: [encode]
    adds Content-Length and Connection on every call, so the second output
    carries them twice and the count grows by four. *)
Theorem encode_twice_duplicates (conn : SOCKET) (c : Z)
    (version : option string) (b : string) (hs : list Header)
    (phrase : string) (w : World) :
  reason c = Done (Some phrase) ->
  Forall (fun h => (String.length (header_line h) <= 160)%nat) hs ->
  (String.length (decimal (Z.of_nat (String.length b))) < 20)%nat ->
  (Z.of_nat (List.length hs) + 4) * 160 <= INT_MAX ->
  exists r1,
    encode (response_with conn c version b hs) w = Done (r1, w) /\
    encode r1 w =
    Done (mkResponse conn (Z.of_nat (List.length hs) + 4)
            (hs ++ synthesized b ++ synthesized b) c version b
            (Some (status_line_of c phrase
                     ++ header_lines (hs ++ synthesized b ++ synthesized b)
                     ++ crlf "" ++ b)), w).
Proof.
  intros Hk Hl Hd Hm. rewrite response_with_fields.
  eexists. split.
  - apply (encode_bounded (mkResponse conn _ hs c version b None) phrase w);
      cbn [code header_count headers body]; auto; lia.
  - rewrite (encode_bounded _ phrase w);
      cbn [code header_count headers body connection http_version]; auto.
    + rewrite <- app_assoc.
      replace (Z.of_nat (List.length hs) + 2 + 2)
        with (Z.of_nat (List.length hs) + 4) by lia.
      reflexivity.
    + rewrite length_app. cbn [synthesized List.length]. lia.
    + apply Forall_app. split; [exact Hl|].
      now apply synthesized_lines_short.
    + lia.
Qed.

Lemma encode_twice_duplicates_witness :
  exists r1,
    encode (response_with 3 200 None "hi" [mkHeader "X" "y"])
           (mkWorld [] [] (fun _ => zero) 0 []) =
      Done (r1, mkWorld [] [] (fun _ => zero) 0 []) /\
    encode r1 (mkWorld [] [] (fun _ => zero) 0 []) =
    Done (mkResponse 3 (Z.of_nat (List.length [mkHeader "X" "y"]) + 4)
            ([mkHeader "X" "y"] ++ synthesized "hi" ++ synthesized "hi")
            200 None "hi"
            (Some (status_line_of 200 "OK"
                     ++ header_lines ([mkHeader "X" "y"] ++ synthesized "hi"
                                        ++ synthesized "hi")
                     ++ crlf "" ++ "hi")),
          mkWorld [] [] (fun _ => zero) 0 []).
Proof.
  apply (encode_twice_duplicates 3 200 None "hi" [mkHeader "X" "y"] "OK").
  - reflexivity.
  - constructor; [vm_compute; lia | constructor].
  - vm_compute. lia.
  - vm_compute. discriminate.
Defined.

(** X14.  The assumption of [construct_headers] is enough.  When every
    caller-set header line (name, colon, space, value, CR LF) has at most
    160 characters and the decimal length of the body fits [body_str[20]],
    a response with a code of the table is encoded without overrunning the
    header block. *)
Theorem encode_within_line_limit (conn : SOCKET) (c : Z)
    (version : option string) (b : string) (hs : list Header)
    (phrase : string) (w : World) :
  reason c = Done (Some phrase) ->
  Forall (fun h => (String.length (header_line h) <= 160)%nat) hs ->
  (String.length (decimal (Z.of_nat (String.length b))) < 20)%nat ->
  (Z.of_nat (List.length hs) + 2) * 160 <= INT_MAX ->
  encode (response_with conn c version b hs) w =
  Done (mkResponse conn (Z.of_nat (List.length hs) + 2)
          (hs ++ synthesized b) c version b
          (Some (status_line_of c phrase
                   ++ header_lines (hs ++ synthesized b)
                   ++ crlf "" ++ b)), w).
Proof.
  intros Hk Hl Hd Hm. rewrite response_with_fields.
  apply (encode_bounded (mkResponse conn _ hs c version b None) phrase w);
    cbn [code header_count headers body]; auto.
Qed.

Lemma encode_within_line_limit_witness :
  encode (response_with 3 201 None "created"
            [mkHeader "Location" (filler 148)])
         (mkWorld [] [] (fun _ => zero) 0 []) =
  Done (mkResponse 3
          (Z.of_nat (List.length [mkHeader "Location" (filler 148)]) + 2)
          ([mkHeader "Location" (filler 148)] ++ synthesized "created")
          201 None "created"
          (Some (status_line_of 201 "Created"
                   ++ header_lines ([mkHeader "Location" (filler 148)]
                                      ++ synthesized "created")
                   ++ crlf "" ++ "created")),
        mkWorld [] [] (fun _ => zero) 0 []).
Proof.
  apply (encode_within_line_limit 3 201 None "created"
           [mkHeader "Location" (filler 148)] "Created").
  - reflexivity.
  - constructor; [|constructor].
    apply Nat.leb_le. vm_compute. reflexivity.
  - vm_compute. lia.
  - vm_compute. discriminate.
Defined.

Lemma send_response_below_limit (cfg : Configuration) (r r' : Response)
    (w w1 : World) (encoded : string) :
  0 <= max_ressize cfg <= INT_MAX ->
  encode r w = Done (r', w1) ->
  encoded_response r' = Some encoded ->
  Z.of_nat (String.length encoded) < max_ressize cfg ->
  let len := Z.of_nat (String.length encoded) in
  let ret := next_send_return w1 len in
  exists w',
    send_response cfg r w = Done (tt, w') /\
    trace w' = (trace w1 ++ Send (connection r') encoded len ret
                  :: send_report ret len (last_error w1))%list.
Proof.
  intros Hm He Henc Hlt len ret. unfold send_response, bind at 1.
  rewrite He, Henc. fold len.
  assert (Hs : to_size_t (max_ressize cfg) = max_ressize cfg).
  { unfold to_size_t. apply Z.mod_small. unfold INT_MAX in Hm. lia. }
  rewrite Hs.
  assert (Hge : (len >=? max_ressize cfg) = false)
    by (rewrite Z.geb_leb; apply Z.leb_gt; lia).
  rewrite Hge, (to_int_small len) by (unfold len; lia).
  unfold bind, send, send_report, next_send_return in *.
  destruct (send_returns w1) as [|x rest] eqn:Hsr; subst ret.
  - replace (len =? SOCKET_ERROR) with false
      by (symmetry; apply Z.eqb_neq; unfold SOCKET_ERROR, len; lia).
    rewrite Z.eqb_refl. cbn. eexists. split; [reflexivity|].
    cbn. reflexivity.
  - destruct (x =? SOCKET_ERROR) eqn:Ex.
    + cbn. eexists. split; [reflexivity|]. cbn.
      now rewrite <- app_assoc.
    + destruct (x =? len) eqn:El; cbn.
      * eexists. split; [reflexivity|]. reflexivity.
      * eexists. split; [reflexivity|]. cbn. now rewrite <- app_assoc.
Qed.

(** X15.  Below the limit [send_response] calls [send] exactly once, with
    the whole encoded text and its exact length; a failed or short send is
    only reported, never retried. *)
Theorem send_response_sends_once (cfg : Configuration) (r r' : Response)
    (w w1 : World) (encoded : string) :
  0 <= max_ressize cfg <= INT_MAX ->
  encode r w = Done (r', w1) ->
  encoded_response r' = Some encoded ->
  Z.of_nat (String.length encoded) < max_ressize cfg ->
  let len := Z.of_nat (String.length encoded) in
  let ret := next_send_return w1 len in
  exists w',
    send_response cfg r w = Done (tt, w') /\
    trace w' = (trace w1 ++ Send (connection r') encoded len ret
                  :: send_report ret len (last_error w1))%list.
Proof. apply send_response_below_limit. Qed.

Lemma send_response_sends_once_witness :
  exists w',
    send_response (mkConfiguration 80 8192 8192 true)
      (fresh_response 3 200 None "hello")
      (mkWorld [] [10] (fun _ => zero) 0 []) = Done (tt, w') /\
    trace w' =
      [Send 3 (status_line_of 200 "OK" ++ header_lines (synthesized "hello")
                 ++ crlf "" ++ "hello") 62 10;
       Printf ("Warning: Not all bytes sent. Bytes sent: 10, Expected: 62"
                 ++ String LF EmptyString)].
Proof.
  refine (send_response_sends_once (mkConfiguration 80 8192 8192 true)
            (fresh_response 3 200 None "hello")
            (mkResponse 3 2 (synthesized "hello") 200 None "hello"
               (Some (status_line_of 200 "OK"
                        ++ header_lines (synthesized "hello")
                        ++ crlf "" ++ "hello")))
            (mkWorld [] [10] (fun _ => zero) 0 [])
            (mkWorld [] [10] (fun _ => zero) 0 [])
            _ _ _ _ _).
  - vm_compute. split; discriminate.
  - vm_compute. reflexivity.
  - reflexivity.
  - vm_compute. reflexivity.
Defined.

(* ================================================================== *)
(** * Further properties of the handler *)
(* ================================================================== *)

Section MoreHandler.

Variable cfg : Configuration.
Variable conn : SOCKET.

Lemma silent_refl (w : World) : silent w w.
Proof. split; reflexivity. Qed.

Lemma silent_trans (w1 w2 w3 : World) :
  silent w1 w2 -> silent w2 w3 -> silent w1 w3.
Proof. intros [A B] [C D]. split; congruence. Qed.

Lemma silent_printf (w : World) (text : string) :
  silent w (with_event w (Printf text)).
Proof.
  split; cbn [with_event trace]; unfold sends, closes;
    rewrite filter_app; cbn; apply app_nil_r.
Qed.

Lemma silent_same_trace (w w' : World) : trace w' = trace w -> silent w w'.
Proof. intros H. split; now rewrite H. Qed.

Lemma closes_close (w : World) (s : SOCKET) :
  closes (trace (with_event w (CloseSocket s)))
  = (closes (trace w) ++ [CloseSocket s])%list.
Proof. cbn [with_event trace]. unfold closes. now rewrite filter_app. Qed.

Lemma new_request_silent (headers : string) (w : World) (r : Request)
    (w' : World) :
  new_request conn headers w = Done (r, w') ->
  req_connection r = conn /\ silent w w'.
Proof.
  intros H.
  destruct (new_request_run conn headers w)
    as (r0 & w0 & Hrun & Hc & _ & _ & Hw).
  rewrite Hrun in H. injection H as <- <-. split; [exact Hc|].
  destruct Hw as [-> | (line & ->)];
    [apply silent_refl | apply silent_printf].
Qed.

Lemma display_headers_silent (hs : list Header) :
  forall w w', display_headers hs w = Done (tt, w') -> silent w w'.
Proof.
  induction hs as [|h hs IH]; intros w w'; cbn [display_headers].
  - intros [= <-]. apply silent_refl.
  - unfold bind, printf, emit. intros H. apply IH in H.
    eapply silent_trans; [apply silent_printf | exact H].
Qed.

Lemma display_request_details_silent (r : Request) (b : option string)
    (w w' : World) :
  display_request_details r b w = Done (tt, w') -> silent w w'.
Proof.
  unfold display_request_details, bind, deref, ret, fail.
  destruct (method r); [|discriminate].
  destruct (path r); [|discriminate].
  destruct (req_http_version r); [|discriminate].
  unfold printf, emit.
  destruct (display_headers _ _) as [[[] w1]|] eqn:E; [|discriminate].
  apply display_headers_silent in E.
  assert (H1 : silent w w1).
  { eapply silent_trans; [apply silent_printf|].
    eapply silent_trans; [apply silent_printf | exact E]. }
  destruct b; intros [= <-].
  - eapply silent_trans; [exact H1|].
    eapply silent_trans; apply silent_printf.
  - eapply silent_trans; [exact H1 | apply silent_printf].
Qed.

Lemma hello_length : Z.of_nat (String.length hello_encoded) = 98.
Proof. reflexivity. Qed.

(** The one response of the handler: never a close, at most one send, and
    then of the fixed page. *)
Lemma send_hello_shape (version : option string) (w w' : World) :
  send_response cfg (mkResponse conn 0 [] 200 version hello_page None) w
    = Done (tt, w') ->
  closes (trace w') = closes (trace w) /\
  (sends (trace w') = sends (trace w) \/
   exists ret,
     sends (trace w') = (sends (trace w)
                           ++ [Send conn hello_encoded 98 ret])%list).
Proof.
  unfold send_response, bind at 1. rewrite encode_hello.
  cbn [encoded_response connection]. rewrite hello_length.
  change (to_int 98) with 98.
  destruct (98 >=? to_size_t (max_ressize cfg)).
  - unfold bind, printf, emit, free_response, ret. intros [= <-].
    destruct (silent_printf w
      ("Attempted to send response that exceeds configuration->max_ressize. Response size: "
         ++ decimal 98)) as [S C].
    split; [exact C | left; exact S].
  - unfold bind at 1, send.
    assert (Hsent : forall rest ret w'',
               silent (with_event (with_send_returns w rest)
                         (Send conn hello_encoded 98 ret)) w'' ->
               closes (trace w'') = closes (trace w) /\
               (sends (trace w'') = sends (trace w) \/
                exists ret0,
                  sends (trace w'') =
                  (sends (trace w) ++ [Send conn hello_encoded 98 ret0])%list)).
    { intros rest ret w'' [Q1 Q2]. split.
      - rewrite Q2. cbn [with_event with_send_returns trace].
        unfold closes. rewrite filter_app. cbn. apply app_nil_r.
      - right. exists ret. rewrite Q1.
        cbn [with_event with_send_returns trace].
        unfold sends. now rewrite filter_app. }
    destruct (send_returns w) as [|x rest]; cbv beta iota zeta.
    + change (98 =? SOCKET_ERROR) with false.
      change (negb (98 =? 98)) with false. cbv iota.
      unfold bind, ret, free_response. intros [= <-].
      apply (Hsent [] 98). apply silent_refl.
    + unfold bind, WSAGetLastError, printf, emit, free_response, ret.
      destruct (x =? SOCKET_ERROR).
      * intros [= <-]. apply (Hsent rest x). apply silent_printf.
      * destruct (negb (x =? 98)); intros [= <-]; apply (Hsent rest x);
          [apply silent_printf | apply silent_refl].
Qed.

(** Every run of the handler that returns. *)
Lemma handle_request_shape (w w' : World) :
  handle_request conn cfg w = Done (tt, w') ->
  closes (trace w') = (closes (trace w) ++ [CloseSocket conn])%list /\
  (exists t, trace w' = (t ++ [CloseSocket conn])%list) /\
  (sends (trace w') = sends (trace w) \/
   exists ret,
     sends (trace w') = (sends (trace w)
                           ++ [Send conn hello_encoded 98 ret])%list).
Proof.
  unfold handle_request. unfold bind at 1.
  destruct (http_decode conn cfg w) as [[[hd b] w1]|] eqn:Ed; [|discriminate].
  apply http_decode_trace, silent_same_trace in Ed. destruct Ed as [S1 C1].
  destruct hd as [hd|].
  - unfold bind at 1.
    destruct (new_request conn hd w1) as [[r w2]|] eqn:En; [|discriminate].
    apply new_request_silent in En as (Hc & S2 & C2).
    unfold bind at 1.
    assert (Hmid : forall w3,
              (closes (trace w3) = closes (trace w) /\
               (sends (trace w3) = sends (trace w) \/
                exists ret, sends (trace w3) =
                  (sends (trace w) ++ [Send conn hello_encoded 98 ret])%list))
              -> free_request_resources r (Some hd) b w3 = Done (tt, w') ->
              closes (trace w')
                = (closes (trace w) ++ [CloseSocket conn])%list /\
              (exists t, trace w' = (t ++ [CloseSocket conn])%list) /\
              (sends (trace w') = sends (trace w) \/
               exists ret, sends (trace w') =
                 (sends (trace w) ++ [Send conn hello_encoded 98 ret])%list)).
    { intros w3 [C3 S3].
      unfold free_request_resources, free_request, closesocket, emit.
      rewrite Hc. intros [= <-]. split; [|split].
      - now rewrite closes_close, C3.
      - eexists. reflexivity.
      - rewrite sends_close. exact S3. }
    destruct (method_is_set r).
    + unfold bind at 1.
      destruct (display_request_details r b w2) as [[[] w3]|] eqn:Dd;
        [|discriminate].
      apply display_request_details_silent in Dd as [S3 C3].
      unfold bind at 1, strdup, deref.
      destruct (req_http_version r) as [v|]; [|discriminate].
      unfold ret at 1.
      destruct (send_response cfg _ w3) as [[[] w4]|] eqn:Es; [|discriminate].
      rewrite Hc in Es. apply send_hello_shape in Es as [C4 S4].
      apply Hmid. split; [congruence|].
      destruct S4 as [S4 | (ret & S4)]; [left | right; exists ret]; congruence.
    + unfold ret at 1. apply Hmid. split; [congruence | left; congruence].
  - unfold bind, printf, closesocket, emit. intros [= <-]. split; [|split].
    + rewrite closes_close.
      destruct (silent_printf w1 "Failed to parse headers from client")
        as [_ C]. congruence.
    + eexists. reflexivity.
    + left. rewrite sends_close.
      destruct (silent_printf w1 "Failed to parse headers from client")
        as [S _]. congruence.
Qed.

End MoreHandler.

Section HandlerCases.

Variable cfg : Configuration.
Variable conn : SOCKET.

Lemma http_decode_nothing (w : World) :
  0 < max_reqsize cfg -> nothing_arrives (incoming w) ->
  exists w', http_decode conn cfg w = Done ((None, None), w') /\
             trace w' = trace w.
Proof.
  intros Hm Hn. unfold http_decode.
  assert (Hnot : (max_reqsize cfg <=? 0) = false) by (apply Z.leb_gt; lia).
  rewrite Hnot.
  set (buffer := map (stack_bytes w) (seq 0 (Z.to_nat (max_reqsize cfg)))).
  assert (Hlen : List.length buffer = Z.to_nat (max_reqsize cfg))
    by (unfold buffer; now rewrite length_map, length_seq).
  assert (Hfin : decode_finish buffer 0 w = Done ((None, None), w)).
  { unfold decode_finish.
    assert (Hin : (0 <=? 0) && (0 <? Z.of_nat (List.length buffer)) = true)
      by (apply andb_true_iff; split;
          [reflexivity | apply Z.ltb_lt; lia]).
    now rewrite Hin. }
  destruct (Z.to_nat (max_reqsize cfg)) as [|k] eqn:Hk; [lia|].
  cbn [decode_loop].
  destruct (0 <? max_reqsize cfg - 1); [|exists w; now split].
  unfold bind at 1, recv.
  destruct (incoming w) as [|[[|b bs]|] rest]; try contradiction; cbn.
  - exists w. now split.
  - unfold decode_finish in *.
    destruct ((0 <=? 0) && (0 <? Z.of_nat (List.length buffer)));
      [|discriminate].
    eexists. split; [reflexivity | reflexivity].
  - unfold decode_finish in *.
    destruct ((0 <=? 0) && (0 <? Z.of_nat (List.length buffer)));
      [|discriminate].
    eexists. split; [reflexivity | reflexivity].
Qed.

Lemma display_headers_returns (hs : list Header) (w : World) :
  exists w', display_headers hs w = Done (tt, w').
Proof.
  revert w; induction hs as [|h hs IH]; intros w; cbn [display_headers].
  - now exists w.
  - unfold bind, printf, emit. apply IH.
Qed.

Lemma display_request_details_returns (r : Request) (b : option string)
    (m p v : string) (w : World) :
  method r = Some m -> path r = Some p -> req_http_version r = Some v ->
  exists w', display_request_details r b w = Done (tt, w') /\ silent w w'.
Proof.
  intros Hm Hp Hv.
  assert (H : exists w', display_request_details r b w = Done (tt, w')).
  { unfold display_request_details, bind, deref, ret.
    rewrite Hm, Hp, Hv. unfold printf, emit.
    destruct (display_headers_returns (req_headers r)
                (with_event (with_event w
                   (Printf ("Resource requested: " ++ m ++ " " ++ p ++ " "
                              ++ v ++ String LF EmptyString)))
                   (Printf ("Headers:" ++ String LF EmptyString))))
      as (w1 & ->).
    destruct b; eexists; reflexivity. }
  destruct H as (w' & H). exists w'. split; [exact H|].
  exact (display_request_details_silent r b w w' H).
Qed.

Lemma bind_done {A B} (m : M A) (k : A -> M B) (w w' : World) (a : A) :
  m w = Done (a, w') -> bind m k w = k a w'.
Proof. intros H. unfold bind. now rewrite H. Qed.

Lemma display_headers_env (hs : list Header) :
  forall w w', display_headers hs w = Done (tt, w') ->
               send_returns w' = send_returns w.
Proof.
  induction hs as [|h hs IH]; intros w w'; cbn [display_headers].
  - now intros [= <-].
  - unfold bind, printf, emit. intros H. now apply IH in H.
Qed.

Lemma display_request_details_env (r : Request) (b : option string)
    (w w' : World) :
  display_request_details r b w = Done (tt, w') ->
  send_returns w' = send_returns w.
Proof.
  unfold display_request_details, bind, deref, ret, fail.
  destruct (method r); [|discriminate].
  destruct (path r); [|discriminate].
  destruct (req_http_version r); [|discriminate].
  unfold printf, emit.
  destruct (display_headers _ _) as [[[] w1]|] eqn:E; [|discriminate].
  apply display_headers_env in E.
  destruct b; intros [= <-]; exact E.
Qed.

Lemma sends_report (ret len err : Z) : sends (send_report ret len err) = [].
Proof.
  unfold send_report. destruct (ret =? SOCKET_ERROR); [reflexivity|].
  destruct (negb (ret =? len)); reflexivity.
Qed.

End HandlerCases.

(** X16.  When the first [recv] finds nothing (peer closed, or transport
    failure), whatever the buffer held, the handler prints one diagnostic
    and closes the connection; it parses and sends nothing. *)
Theorem handle_request_nothing_received
    (conn : SOCKET) (cfg : Configuration) (w : World) :
  0 < max_reqsize cfg -> nothing_arrives (incoming w) ->
  exists w',
    handle_request conn cfg w = Done (tt, w') /\
    trace w' = (trace w ++ [Printf "Failed to parse headers from client";
                            CloseSocket conn])%list.
Proof.
  intros Hm Hn.
  destruct (http_decode_nothing cfg conn w Hm Hn) as (w1 & Hd & Ht).
  unfold handle_request, bind at 1. rewrite Hd.
  unfold bind, printf, closesocket, emit. eexists. split; [reflexivity|].
  cbn [with_event trace]. now rewrite Ht, <- app_assoc.
Qed.

Lemma handle_request_nothing_received_witness :
  exists w',
    handle_request 3 (mkConfiguration 80 8192 8192 true)
      (mkWorld [Failure] [] (fun _ => "x"%char) 0 []) = Done (tt, w') /\
    trace w' = [Printf "Failed to parse headers from client"; CloseSocket 3].
Proof.
  apply (handle_request_nothing_received 3
           (mkConfiguration 80 8192 8192 true)
           (mkWorld [Failure] [] (fun _ => "x"%char) 0 [])).
  - reflexivity.
  - exact I.
Defined.

(** X17.  Every run of the handler that returns has closed the connection
    exactly once, as its last action. *)
Theorem handle_request_closes_once
    (conn : SOCKET) (cfg : Configuration) (w w' : World) :
  handle_request conn cfg w = Done (tt, w') ->
  closes (trace w') = (closes (trace w) ++ [CloseSocket conn])%list /\
  exists t, trace w' = (t ++ [CloseSocket conn])%list.
Proof.
  intros H. destruct (handle_request_shape cfg conn w w' H) as (A & B & _).
  now split.
Qed.

Lemma handle_request_closes_once_witness :
  exists w',
    handle_request 3 (mkConfiguration 80 256 8192 true)
      (mkWorld [Data (list_ascii_of_string
                        ("GET / HTTP/1.1" ++ separator ++ "hello"))]
               [] (fun _ => zero) 0 []) = Done (tt, w') /\
    closes (trace w') = [CloseSocket 3] /\
    exists t, trace w' = (t ++ [CloseSocket 3])%list.
Proof.
  eexists. split; [vm_compute; reflexivity|].
  refine (handle_request_closes_once 3 (mkConfiguration 80 256 8192 true)
            (mkWorld [Data (list_ascii_of_string
                              ("GET / HTTP/1.1" ++ separator ++ "hello"))]
                     [] (fun _ => zero) 0 []) _ _).
  vm_compute; reflexivity.
Defined.

(** X18.  Every run of the handler that returns has called [send] at most
    once, and then with the 98 bytes of the fixed page, whatever was
    requested. *)
Theorem handle_request_sends_fixed_page
    (conn : SOCKET) (cfg : Configuration) (w w' : World) :
  handle_request conn cfg w = Done (tt, w') ->
  sends (trace w') = sends (trace w) \/
  exists ret,
    sends (trace w') = (sends (trace w)
                          ++ [Send conn hello_encoded 98 ret])%list.
Proof.
  intros H. now destruct (handle_request_shape cfg conn w w' H) as (_ & _ & C).
Qed.

Lemma handle_request_sends_fixed_page_witness :
  exists w',
    handle_request 3 (mkConfiguration 80 256 8192 true)
      (mkWorld [Data (list_ascii_of_string
                        ("DELETE /x HTTP/1.0" ++ separator))]
               [7] (fun _ => zero) 0 []) = Done (tt, w') /\
    (sends (trace w') = [] \/
     exists ret, sends (trace w') = [Send 3 hello_encoded 98 ret]).
Proof.
  eexists. split; [vm_compute; reflexivity|].
  refine (handle_request_sends_fixed_page 3
            (mkConfiguration 80 256 8192 true)
            (mkWorld [Data (list_ascii_of_string
                              ("DELETE /x HTTP/1.0" ++ separator))]
                     [7] (fun _ => zero) 0 []) _ _).
  vm_compute; reflexivity.
Defined.

(** X19.  A header text that is not answerable gets no response: the
    handler prints at most the diagnostic of the malformed line, sends
    nothing and closes the connection. *)
Theorem handle_request_invalid_no_response
    (conn : SOCKET) (cfg : Configuration) (w w1 : World)
    (hd : string) (body : option string) :
  http_decode conn cfg w = Done ((Some hd, body), w1) ->
  ~ answerable hd ->
  exists w',
    handle_request conn cfg w = Done (tt, w') /\
    (trace w' = (trace w ++ [CloseSocket conn])%list \/
     exists line,
       trace w' = (trace w ++ [malformed_diagnostic line;
                               CloseSocket conn])%list).
Proof.
  intros Hd Hna.
  pose proof (http_decode_trace conn cfg w w1 _ Hd) as Ht.
  destruct (new_request_run conn hd w1) as (r & w2 & Hrun & Hc & _ & _ & Hw).
  destruct (new_request_validity conn hd w1) as (r0 & w0 & Hrun0 & Hv).
  rewrite Hrun in Hrun0. injection Hrun0 as <- <-.
  assert (Hm : method_is_set r = false).
  { destruct (method_is_set r); [|reflexivity].
    exfalso. apply Hna, Hv. reflexivity. }
  unfold handle_request, bind at 1. rewrite Hd.
  unfold bind at 1. rewrite Hrun. unfold bind at 1. rewrite Hm.
  unfold ret, free_request_resources, free_request, closesocket, emit.
  rewrite Hc. eexists. split; [reflexivity|].
  cbn [with_event trace].
  destruct Hw as [-> | (line & ->)].
  - left. now rewrite Ht.
  - right. exists line. cbn [with_event trace].
    now rewrite Ht, <- app_assoc.
Qed.

Lemma handle_request_invalid_no_response_witness :
  exists w',
    handle_request 3 (mkConfiguration 80 256 8192 true)
      (mkWorld [Data (list_ascii_of_string
                        ("GET / HTTP/1.1" ++ String LF "bogus" ++ separator))]
               [] (fun _ => zero) 0 []) = Done (tt, w') /\
    (trace w' = [CloseSocket 3] \/
     exists line,
       trace w' = [malformed_diagnostic line; CloseSocket 3]).
Proof.
  refine (handle_request_invalid_no_response 3
            (mkConfiguration 80 256 8192 true)
            (mkWorld [Data (list_ascii_of_string
                        ("GET / HTTP/1.1" ++ String LF "bogus" ++ separator))]
                     [] (fun _ => zero) 0 [])
            (mkWorld [] [] (fun _ => zero) 0 [])
            ("GET / HTTP/1.1" ++ String LF "bogus") (Some "") _ _).
  - vm_compute; reflexivity.
  - intros (line & rest & Hl & H).
    vm_compute in Hl. injection Hl as <- <-.
    destruct H as [H | [_ H]]; [vm_compute in H; discriminate|].
    inversion H as [|? ? Hc _]. apply Hc. reflexivity.
Defined.

(** X20.  A first line with exactly one space takes the handler into
    undefined behaviour: the request passes the method test with a NULL
    path and version, and [display_request_details] hands the NULL path to
    the [%s] of its printf.  What a build does from there is not stated. *)
Theorem handle_request_one_space_faults
    (conn : SOCKET) (cfg : Configuration) (w w1 : World)
    (hd line : string) (rest : list string) (body : option string) :
  http_decode conn cfg w = Done ((Some hd, body), w1) ->
  lines_of hd = line :: rest ->
  count_char " " line = 1%nat ->
  handle_request conn cfg w = Fault NullArgument.
Proof.
  intros Hd Hl H1.
  destruct (count_char_one " " line H1) as (m & t & -> & Hm & Ht).
  apply lines_of_cons in Hl as (sp & E & _).
  assert (Hrun : new_request conn hd w1 =
                 Done (mkRequest conn 0 [] (Some m) None None, w1)).
  { unfold new_request. rewrite E.
    now rewrite (parse_status_line_one_space m t _ Hm Ht). }
  unfold handle_request, bind at 1. rewrite Hd.
  unfold bind at 1. rewrite Hrun. reflexivity.
Qed.

Lemma handle_request_one_space_faults_witness :
  handle_request 3 (mkConfiguration 80 256 8192 true)
    (mkWorld [Data (list_ascii_of_string
                      ("GET /index.html" ++ String LF "Host: x" ++ separator))]
             [] (fun _ => zero) 0 []) = Fault NullArgument.
Proof.
  refine (handle_request_one_space_faults 3
            (mkConfiguration 80 256 8192 true)
            (mkWorld [Data (list_ascii_of_string
                      ("GET /index.html" ++ String LF "Host: x" ++ separator))]
                     [] (fun _ => zero) 0 [])
            (mkWorld [] [] (fun _ => zero) 0 [])
            ("GET /index.html" ++ String LF "Host: x")
            "GET /index.html" ["Host: x"] (Some "") _ _ _).
  - vm_compute; reflexivity.
  - reflexivity.
  - reflexivity.
Defined.

(** X21.  A well-formed request under a sufficient limit is answered:
    the handler returns, having called [send] once with the fixed page. *)
Theorem handle_request_answers
    (conn : SOCKET) (cfg : Configuration) (w w1 : World)
    (hd m p v : string) (lines : list string) (body : option string) :
  http_decode conn cfg w = Done ((Some hd, body), w1) ->
  lines_of hd = request_line m p v :: lines ->
  count_char " " m = O -> count_char " " p = O ->
  Forall has_colon lines ->
  98 < max_ressize cfg <= INT_MAX ->
  exists w',
    handle_request conn cfg w = Done (tt, w') /\
    sends (trace w') =
      (sends (trace w)
         ++ [Send conn hello_encoded 98 (next_send_return w1 98)])%list.
Proof.
  intros Hd Hl Hm Hp Hc Hlim.
  pose proof (http_decode_trace conn cfg w w1 _ Hd) as Ht.
  pose proof (new_request_well_formed_run conn hd m p v lines w1 Hl Hm Hp Hc)
    as Hrun.
  set (r := mkRequest conn (Z.of_nat (List.length lines))
              (rev (map header_of_line lines)) (Some m) (Some p) (Some v))
    in *.
  destruct (display_request_details_returns r body m p v w1
              eq_refl eq_refl eq_refl) as (w3 & Hdisp & S3 & C3).
  pose proof (display_request_details_env r body w1 w3 Hdisp) as Hsr.
  destruct (send_response_below_limit cfg
              (mkResponse conn 0 [] 200 (Some v) hello_page None) _ w3 w3
              hello_encoded ltac:(lia) (encode_hello conn (Some v) w3) eq_refl
              ltac:(rewrite hello_length; lia))
    as (w4 & Hsend & T4).
  assert (Hinner :
    (display_request_details r body ;;
     version <- strdup (req_http_version r) ;;
     send_response cfg
       (mkResponse (req_connection r) 0 [] 200 (Some version) hello_page None))
      w1 = Done (tt, w4)).
  { rewrite (bind_done _ _ _ _ _ Hdisp). exact Hsend. }
  unfold handle_request.
  rewrite (bind_done _ _ _ _ _ Hd). cbv beta iota.
  rewrite (bind_done _ _ _ _ _ Hrun).
  change (method_is_set r) with true. cbv iota.
  rewrite (bind_done _ _ _ _ _ Hinner).
  unfold free_request_resources, free_request, closesocket, emit.
  eexists. split; [reflexivity|].
  rewrite sends_close, T4. unfold sends at 1.
  rewrite filter_app. cbn [filter is_send]. fold (sends (trace w3)).
  fold (sends (send_report (next_send_return w3
                              (Z.of_nat (String.length hello_encoded)))
                           (Z.of_nat (String.length hello_encoded))
                           (last_error w3))).
  rewrite sends_report, S3, Ht, hello_length.
  unfold next_send_return. now rewrite Hsr.
Qed.

Lemma handle_request_answers_witness :
  exists w',
    handle_request 3 (mkConfiguration 80 256 8192 true)
      (mkWorld [Data (list_ascii_of_string
                        ("GET / HTTP/1.1" ++ String LF "Host: x"
                           ++ separator ++ "hello"))]
               [] (fun _ => zero) 0 []) = Done (tt, w') /\
    sends (trace w') = [Send 3 hello_encoded 98 98].
Proof.
  refine (handle_request_answers 3
            (mkConfiguration 80 256 8192 true)
            (mkWorld [Data (list_ascii_of_string
                        ("GET / HTTP/1.1" ++ String LF "Host: x"
                           ++ separator ++ "hello"))]
                     [] (fun _ => zero) 0 [])
            (mkWorld [] [] (fun _ => zero) 0 [])
            ("GET / HTTP/1.1" ++ String LF "Host: x")
            "GET" "/" "HTTP/1.1" ["Host: x"] (Some "hello") _ _ _ _ _ _).
  - vm_compute; reflexivity.
  - reflexivity.
  - reflexivity.
  - reflexivity.
  - constructor; [discriminate | constructor].
  - split; [reflexivity | discriminate].
Defined.

(* ================================================================== *)
(** * Further properties of the frame reader *)
(* ================================================================== *)

Section MoreFrame.

Lemma prefix_split (n hay : string) :
  prefix n hay = true -> hay = n ++ drop (String.length n) hay.
Proof.
  revert hay; induction n as [|a n IH]; intros hay;
    [now destruct hay|].
  destruct hay as [|b hay]; cbn [prefix]; [discriminate|].
  destruct (ascii_dec a b) as [->|]; [|discriminate].
  intros H. cbn. f_equal. now apply IH.
Qed.

Lemma prefix_take (n hay : string) (j : nat) :
  prefix n (take j hay) = true -> prefix n hay = true.
Proof.
  revert hay j; induction n as [|a n IH]; intros hay j;
    [now destruct hay|].
  destruct hay as [|b hay]; destruct j; cbn [take prefix]; try discriminate.
  destruct (ascii_dec a b); [|discriminate]. apply IH.
Qed.

Lemma strstr_found (hay n : string) (k : nat) :
  strstr hay n = Some k ->
  hay = take k hay ++ n ++ drop (k + String.length n) hay.
Proof.
  revert k; induction hay as [|a hay IH]; intros k; cbn [strstr].
  - destruct (prefix n "") eqn:P; [|discriminate].
    intros [= <-]. now apply prefix_split.
  - destruct (prefix n (String a hay)) eqn:P.
    + intros [= <-]. now apply prefix_split.
    + destruct (strstr hay n) as [j|]; [|discriminate]. intros [= <-].
      cbn. f_equal. now apply IH.
Qed.

Lemma strstr_first (hay n : string) (k : nat) :
  n <> "" -> strstr hay n = Some k -> strstr (take k hay) n = None.
Proof.
  intros Hn. revert k; induction hay as [|a hay IH]; intros k; cbn [strstr].
  - destruct n; [contradiction|]. discriminate.
  - destruct (prefix n (String a hay)) eqn:P.
    + intros [= <-]. destruct n; [contradiction | reflexivity].
    + destruct (strstr hay n) as [j|] eqn:E; [|discriminate]. intros [= <-].
      cbn [take strstr].
      destruct (prefix n (String a (take j hay))) eqn:P'.
      * apply (prefix_take n (String a hay) (S j)) in P'. congruence.
      * now rewrite (IH j eq_refl).
Qed.

Lemma string_of_list_app (a b : list ascii) :
  string_of_list_ascii (a ++ b)
  = string_of_list_ascii a ++ string_of_list_ascii b.
Proof. induction a as [|c a IH]; cbn; [reflexivity | now rewrite IH]. Qed.

(** A split by [frame] loses and invents nothing, and cuts at the first
    separator. *)
Lemma frame_split (capacity : nat) (arrivals : list arrival) :
  forall acc h b,
    frame capacity acc arrivals = (Some h, Some b) ->
    exists k,
      h ++ separator ++ b =
        string_of_list_ascii acc ++ received k arrivals /\
      strstr h separator = None.
Proof.
  induction arrivals as [|a rest IH]; intros acc h b; cbn [frame].
  - destruct (capacity - 1 <=? List.length acc)%nat; discriminate.
  - destruct (capacity - 1 <=? List.length acc)%nat; [discriminate|].
    destruct a as [[|c bytes]|]; try discriminate.
    destruct (strstr _ separator) as [k0|] eqn:E.
    + intros [= <- <-]. exists 1%nat. split.
      * unfold received. cbn [firstn map List.concat arrival_bytes].
        rewrite app_nil_r, <- string_of_list_app.
        symmetry. exact (strstr_found _ _ _ E).
      * apply (strstr_first _ separator k0); [discriminate | exact E].
    + intros H. destruct (IH _ _ _ H) as (k & Hk & Hs).
      exists (S k). split; [|exact Hs].
      rewrite Hk. unfold received.
      cbn [firstn map List.concat arrival_bytes].
      now rewrite !string_of_list_app, append_assoc.
Qed.

End MoreFrame.

(** X22.  When the buffer region starts out zeroed, no NUL byte arrives
    and fewer bytes than the capacity arrive in all, [http_decode] returns
    what the frame reader is specified to return: the split at the
    separator once it shows up in the accumulated bytes, all accumulated
    bytes as header text otherwise (NULL if none), and it prints and sends
    nothing. *)
Theorem http_decode_meets_frame
    (sock : SOCKET) (cfg : Configuration) (w : World) :
  0 < max_reqsize cfg ->
  zeroed w (Z.to_nat (max_reqsize cfg)) ->
  Forall (fun a => nul_free (arrival_bytes a)) (incoming w) ->
  (total_bytes (incoming w) < Z.to_nat (max_reqsize cfg))%nat ->
  exists w',
    http_decode sock cfg w =
      Done (frame (Z.to_nat (max_reqsize cfg)) [] (incoming w), w') /\
    trace w' = trace w.
Proof. apply http_decode_frame. Qed.

Lemma http_decode_meets_frame_witness :
  exists w',
    http_decode 3 (mkConfiguration 80 64 8192 true)
      (mkWorld [Data (list_ascii_of_string ("GET / HTTP/1.1" ++ String CR ""));
                Data (list_ascii_of_string
                        (String LF (String CR (String LF "hello"))));
                Data (list_ascii_of_string "late")]
               [] (fun _ => zero) 0 []) =
      Done ((Some "GET / HTTP/1.1", Some "hello"), w') /\
    trace w' = [].
Proof.
  refine (http_decode_meets_frame 3 (mkConfiguration 80 64 8192 true)
      (mkWorld [Data (list_ascii_of_string ("GET / HTTP/1.1" ++ String CR ""));
                Data (list_ascii_of_string
                        (String LF (String CR (String LF "hello"))));
                Data (list_ascii_of_string "late")]
               [] (fun _ => zero) 0 []) _ _ _ _).
  - reflexivity.
  - intros i _. reflexivity.
  - repeat (apply Forall_cons;
            [repeat (apply Forall_cons; [discriminate|]); apply Forall_nil|]).
    apply Forall_nil.
  - apply Nat.ltb_lt. vm_compute. reflexivity.
Defined.

(** X23.  Under the same conditions a split loses and invents nothing:
    header text, separator and body put together are exactly the bytes of
    the arrivals read so far, and the header text holds no separator. *)
Theorem http_decode_split_reassembles
    (sock : SOCKET) (cfg : Configuration) (w w' : World) (h b : string) :
  0 < max_reqsize cfg ->
  zeroed w (Z.to_nat (max_reqsize cfg)) ->
  Forall (fun a => nul_free (arrival_bytes a)) (incoming w) ->
  (total_bytes (incoming w) < Z.to_nat (max_reqsize cfg))%nat ->
  http_decode sock cfg w = Done ((Some h, Some b), w') ->
  exists k,
    h ++ separator ++ b = received k (incoming w) /\
    strstr h separator = None.
Proof.
  intros Hm Hz Hd Ht Hrun.
  destruct (http_decode_frame sock cfg w Hm Hz Hd Ht) as (w0 & Hf & _).
  rewrite Hf in Hrun. injection Hrun as Hfr _.
  destruct (frame_split _ _ _ _ _ Hfr) as (k & Hk & Hs).
  exists k. split; [exact Hk | exact Hs].
Qed.

Lemma http_decode_split_reassembles_witness :
  exists k,
    "GET / HTTP/1.1" ++ separator ++ "hello" =
      received k
        [Data (list_ascii_of_string ("GET / HTTP/1.1" ++ String CR ""));
         Data (list_ascii_of_string
                 (String LF (String CR (String LF "hello"))));
         Data (list_ascii_of_string "late")] /\
    strstr "GET / HTTP/1.1" separator = None.
Proof.
  refine (http_decode_split_reassembles 3 (mkConfiguration 80 64 8192 true)
      (mkWorld [Data (list_ascii_of_string ("GET / HTTP/1.1" ++ String CR ""));
                Data (list_ascii_of_string
                        (String LF (String CR (String LF "hello"))));
                Data (list_ascii_of_string "late")]
               [] (fun _ => zero) 0 [])
      (mkWorld [Data (list_ascii_of_string "late")] []
               (fun _ => zero) 0 [])
      "GET / HTTP/1.1" "hello" _ _ _ _ _).
  - reflexivity.
  - intros i _. reflexivity.
  - repeat (apply Forall_cons;
            [repeat (apply Forall_cons; [discriminate|]); apply Forall_nil|]).
    apply Forall_nil.
  - apply Nat.ltb_lt. vm_compute. reflexivity.
  - vm_compute. reflexivity.
Defined.
